(** * SignMeet backend: rooms, captions and signaling relay

    A shallow embedding of [backend/server.py]: the REST routes that
    create and join rooms and run the caption pipeline, and the Socket.IO
    event handlers that manage room membership and relay WebRTC
    signaling.

    Every handler is modelled as a function on an explicit server state
    and is run to completion: the interleaving of two handlers at their
    [await] points is outside this model, but for the join route, which
    [JoinSteps] also gives cut at its awaits.  What the process gets from
    its environment (a fresh [uuid4], the clock, the classifier's answer)
    is an argument of the handler that uses it.  What the libraries do
    around a handler is modelled where the outcome of a request depends
    on it: the JSON encoding of a packet and of an answer, the
    validation of a request body, the integers BSON stores. *)

From Stdlib Require Import ZArith Floats Ascii String.
From stdpp Require Import base option list strings gmap sorting.

(** ** Python values *)

(** Truth value of a [str]: the empty string is falsy. *)
Definition str_truthy (s : string) : bool :=
  if decide (s = "") then false else true.

(** Truth value of what [dict.get] or the classifier hands back: [None]
    is falsy, a string is judged as above. *)
Definition truthy (o : option string) : bool :=
  match o with
  | None => false
  | Some s => str_truthy s
  end.

(** ** Pydantic models *)

Module Room.
Record t := mk {
  id : string;
  name : string;
  created_at : Z;
  participants : list string;
  max_participants : Z
}.
End Room.

Module RoomCreate.
(** [max_participants] is [Optional[int] = 6]: the integer the client
    sent, [Some 6] when it sent none, [None] when it sent [null]. *)
Record t := mk {
  name : string;
  max_participants : option Z
}.
End RoomCreate.

Module Participant.
Record t := mk {
  id : string;
  name : string;
  room_id : string;
  joined_at : Z
}.
End Participant.

Module ParticipantCreate.
Record t := mk { name : string }.
End ParticipantCreate.

Module PredictionRequest.
Record t := mk {
  image_data : string;
  room_id : string;
  participant_id : string
}.

(** The request as the framework builds it from the JSON body; [None]
    when a required field is missing. *)
Definition parse (body : gmap string string) : option t :=
  match body !! "image_data", body !! "room_id",
        body !! "participant_id" with
  | Some image_data, Some room_id, Some participant_id =>
      Some (mk image_data room_id participant_id)
  | _, _, _ => None
  end.
End PredictionRequest.

Module Caption.
Record t := mk {
  id : string;
  text : string;
  participant_name : string;
  room_id : string;
  timestamp : Z;
  confidence : float
}.
End Caption.

(** ** Outbound Socket.IO events *)

(** One constructor per event name, carrying the fields of the payload
    dictionary the handler builds.  Values read with [data.get] may be
    missing, hence the options. *)
Inductive Event :=
| participant_joined (participant : Participant.t) (room_id : string)
| new_caption (caption : Caption.t)
| user_joined (sid : string) (participant_id : option string)
| user_left (sid : string)
| webrtc_offer_event (offer : option string) (from_sid : string)
| webrtc_answer_event (answer : option string) (from_sid : string)
| webrtc_ice_candidate_event (candidate : option string) (from_sid : string)
| new_message (message participant_name : option string)
    (timestamp : Z) (from_sid : string).

Definition is_user_left (e : Event) : bool :=
  match e with user_left _ => true | _ => false end.

Definition is_new_caption (e : Event) : bool :=
  match e with new_caption _ => true | _ => false end.

Definition is_participant_joined (e : Event) : bool :=
  match e with participant_joined _ _ => true | _ => false end.

Definition is_user_joined (e : Event) : bool :=
  match e with user_joined _ _ => true | _ => false end.

Definition is_webrtc_offer (e : Event) : bool :=
  match e with webrtc_offer_event _ _ => true | _ => false end.

(** Whether the payload can be encoded as JSON.  [participant.dict()]
    and [caption.dict()] carry a [datetime] ([joined_at], [timestamp]),
    which the JSON encoder of [sio] refuses with a [TypeError]; the other
    payloads are made of what the client sent, of sids and of an
    [isoformat] string. *)
Definition encodable (e : Event) : bool :=
  match e with
  | participant_joined _ _ => false
  | new_caption _ => false
  | _ => true
  end.

(** One call of [sio.emit]: the event, the [room] and [skip_sid]
    arguments, and the connections the packet was sent to, which are
    none when the packet could not be encoded. *)
Record Emitted := mkEmitted {
  event : Event;
  to_room : option string;
  skip_sid : option string;
  recipients : list string
}.

(** ** The Socket.IO room manager

    [sio] is a [socketio.AsyncServer]; its manager keeps, per room name,
    the connections in the room in the order they entered.  The room
    named [None] holds every connected client, and every client is alone
    in the room named by its own sid when it connects.  Room names chosen
    by the application live in the same table. *)

Module Sio.

Definition members (rooms : gmap (option string) (list string))
    (room : option string) : list string :=
  default [] (rooms !! room).

Definition add_member (sid : string) (l : list string) : list string :=
  if decide (sid ∈ l) then l else l ++ [sid].

Definition remove_member (sid : string) (l : list string) : list string :=
  filter (λ x, x ≠ sid) l.

Definition enter_room (rooms : gmap (option string) (list string))
    (sid : string) (room : option string)
    : gmap (option string) (list string) :=
  <[room := add_member sid (members rooms room)]> rooms.

(** Leaving a room one is not in is silently ignored; a room that
    becomes empty is dropped from the table. *)
Definition leave_room (rooms : gmap (option string) (list string))
    (sid : string) (room : option string)
    : gmap (option string) (list string) :=
  match rooms !! room with
  | None => rooms
  | Some l =>
      if decide (sid ∈ l) then
        match remove_member sid l with
        | [] => delete room rooms
        | l' => <[room := l']> rooms
        end
      else rooms
  end.

Definition connect (rooms : gmap (option string) (list string))
    (sid : string) : gmap (option string) (list string) :=
  enter_room (enter_room rooms sid None) sid (Some sid).

(** The manager's part of a disconnect: the sid leaves every room. *)
Definition disconnect (rooms : gmap (option string) (list string))
    (sid : string) : gmap (option string) (list string) :=
  omap (λ l, match remove_member sid l with
             | [] => None
             | l' => Some l'
             end)
    rooms.

(** Who gets a packet emitted to [room] with [skip_sid]. *)
Definition targets (rooms : gmap (option string) (list string))
    (room : option string) (skip : option string) : list string :=
  filter (λ x, Some x ≠ skip) (members rooms room).

End Sio.

(** ** Server state *)

Record State := mkState {
  db_rooms : list Room.t;
  db_participants : list Participant.t;
  db_captions : list Caption.t;
  sio_rooms : gmap (option string) (list string);
  outbox : list Emitted
}.

(** [await sio.emit(event, data, room=..., skip_sid=...)]: the state
    after the call, whether it returned or raised.  The call is logged
    with the connections the packet went to. *)
Definition emit (st : State) (e : Event)
    (room : option string) (skip : option string) : State :=
  {| db_rooms := db_rooms st;
     db_participants := db_participants st;
     db_captions := db_captions st;
     sio_rooms := sio_rooms st;
     outbox := outbox st ++
       [mkEmitted e room skip
          (if encodable e then Sio.targets (sio_rooms st) room skip
           else [])] |}.

(** Whether that call raises.  With no client connected the manager
    knows no room at all and [emit] returns at once; otherwise the
    packet is encoded, once and before anything is sent, and a payload
    that cannot be encoded raises [TypeError]. *)
Definition emit_raises (st : State) (e : Event) : bool :=
  negb (encodable e) && bool_decide (sio_rooms st ≠ ∅).

Definition set_sio_rooms (st : State)
    (rooms : gmap (option string) (list string)) : State :=
  {| db_rooms := db_rooms st;
     db_participants := db_participants st;
     db_captions := db_captions st;
     sio_rooms := rooms;
     outbox := outbox st |}.

(** How many packets of a given kind a connection was sent. *)
Definition delivered (kind : Event → bool) (sid : string)
    (log : list Emitted) : nat :=
  length (filter (λ m, kind (event m) = true ∧ sid ∈ recipients m) log).

(** ** The Mongo collections

    A collection is the list of its documents in insertion order;
    [find_one] and [update_one] act on the first document that matches
    the filter [{"id": ...}], [insert_one] appends. *)

Fixpoint find_one_room (room_id : string) (coll : list Room.t)
    : option Room.t :=
  match coll with
  | [] => None
  | r :: coll' =>
      if decide (Room.id r = room_id) then Some r
      else find_one_room room_id coll'
  end.

Fixpoint find_one_participant (participant_id : string)
    (coll : list Participant.t) : option Participant.t :=
  match coll with
  | [] => None
  | p :: coll' =>
      if decide (Participant.id p = participant_id) then Some p
      else find_one_participant participant_id coll'
  end.

Definition push_participant (r : Room.t) (participant_id : string)
    : Room.t :=
  Room.mk (Room.id r) (Room.name r) (Room.created_at r)
    (Room.participants r ++ [participant_id]) (Room.max_participants r).

(** [update_one({"id": room_id}, {"$push": {"participants": pid}})] *)
Fixpoint update_one_push (room_id participant_id : string)
    (coll : list Room.t) : list Room.t :=
  match coll with
  | [] => []
  | r :: coll' =>
      if decide (Room.id r = room_id)
      then push_participant r participant_id :: coll'
      else r :: update_one_push room_id participant_id coll'
  end.

Definition set_db_rooms (st : State) (coll : list Room.t) : State :=
  {| db_rooms := coll;
     db_participants := db_participants st;
     db_captions := db_captions st;
     sio_rooms := sio_rooms st;
     outbox := outbox st |}.

Definition set_db_participants (st : State) (coll : list Participant.t)
    : State :=
  {| db_rooms := db_rooms st;
     db_participants := coll;
     db_captions := db_captions st;
     sio_rooms := sio_rooms st;
     outbox := outbox st |}.

Definition set_db_captions (st : State) (coll : list Caption.t) : State :=
  {| db_rooms := db_rooms st;
     db_participants := db_participants st;
     db_captions := coll;
     sio_rooms := sio_rooms st;
     outbox := outbox st |}.

(** ** What a route hands back *)

Inductive HTTPException :=
| mkHTTPException (status_code : Z) (detail : string).

Inductive Response (A : Type) :=
| Return (a : A)
| Raise (e : HTTPException).
Arguments Return {A} a.
Arguments Raise {A} e.

(** What the framework answers for an exception that is not an
    [HTTPException] and that no route catches. *)
Definition internal_server_error : HTTPException :=
  mkHTTPException 500 "Internal Server Error".

Record Prediction := mkPrediction {
  predicted_text : option string;
  confidence : float
}.

(** The confidence threshold of the caption gate: the binary64 number
    that Python reads [0.7] as. *)
Definition threshold : float := 0x1.6666666666666p-1%float.

(** ** The classifier front end *)

Module Landmark.
Record t := mk { x : float; y : float; z : float }.
End Landmark.

Module Ml.

(** [np.zeros(n)] *)
Definition zeros (n : nat) : list float := replicate n 0%float.

(** The loop of [extract_landmarks] over [enumerate(hand.landmark)],
    from index [i] on: the first 21 landmarks are written to the array,
    three numbers each. *)
Fixpoint fill_landmarks (i : nat) (landmarks : list Landmark.t)
    (landmarks_array : list float) : list float :=
  match landmarks with
  | [] => landmarks_array
  | landmark :: rest =>
      fill_landmarks (S i) rest
        (if decide (i < 21) then
           <[i * 3 + 2 := Landmark.z landmark]>
             (<[i * 3 + 1 := Landmark.y landmark]>
                (<[i * 3 := Landmark.x landmark]> landmarks_array))
         else landmarks_array)
  end.

(** [extract_landmarks], given what MediaPipe made of the image: [None]
    when the conversion or the detection raised, else
    [results.multi_hand_landmarks], which is [None] or the list of the
    hands found, each hand the list of its landmarks. *)
Definition extract_landmarks
    (detected : option (option (list (list Landmark.t)))) : list float :=
  match detected with
  | None => zeros 63
  | Some None => zeros 63
  | Some (Some []) => zeros 63
  | Some (Some (hand_landmarks :: _)) =>
      fill_landmarks 0 hand_landmarks (zeros 63)
  end.

(** [s.split(sep)] for a separator of one character. *)
Fixpoint split (sep : Ascii.ascii) (s : string) : list string :=
  match s with
  | EmptyString => [EmptyString]
  | String c s' =>
      if decide (c = sep) then EmptyString :: split sep s'
      else
        match split sep s' with
        | [] => [String c EmptyString]
        | piece :: pieces => String c piece :: pieces
        end
  end.

(** [load_ml_model], from both globals unset: [loaded_model] and
    [loaded_labels] tell whether [load_model] and [joblib.load] gave a
    value ([true]) or raised, [labels_sized] whether [len(labels)] in
    the log line, which is inside the [try], gave a number.  The answer
    is the two globals, as set or not, and the value returned.  The
    labels are not read when the model did not load. *)
Definition load_ml_model (loaded_model loaded_labels labels_sized : bool)
    : bool * bool * bool :=
  if loaded_model then
    if loaded_labels then
      if labels_sized then (true, true, true) else (true, true, false)
    else (true, false, false)
  else (false, false, false).

(** [predict_sign].  [model_loaded] and [labels_loaded] tell whether the
    globals [model] and [labels] are set; [infer] is everything from
    [base64.b64decode] to the lookup in [labels], applied to the text
    after the first comma, and is [None] when any of it raises. *)
Definition predict_sign (model_loaded labels_loaded : bool)
    (infer : string → option (string * float)) (image_data : string)
    : option string * float :=
  if negb model_loaded || negb labels_loaded then (None, 0%float)
  else
    match split ","%char image_data !! 1 with
    | None => (None, 0%float)
    | Some encoded =>
        match infer encoded with
        | None => (None, 0%float)
        | Some (predicted_label, confidence) =>
            (Some predicted_label, confidence)
        end
    end.

End Ml.

(** The order of [.sort("timestamp", -1)]: newest first.  Captions of
    equal timestamp come in an order Mongo does not fix; the sort used
    here keeps some order for them. *)
Definition newer_first (a b : Caption.t) : Prop :=
  (Caption.timestamp b ≤ Caption.timestamp a)%Z.

#[global] Instance newer_first_dec : RelDecision newer_first.
Proof. intros a b. unfold newer_first. apply _. Defined.

(** ** REST routes *)

(** The integers BSON can hold. *)
Definition fits_int64 (n : Z) : bool :=
  (-9223372036854775808 <=? n)%Z && (n <=? 9223372036854775807)%Z.

Module Api.

(** [POST /api/rooms].  Building the [Room] from the fields of
    [room_data] refuses a capacity that is [None], and [insert_one]
    refuses an integer that does not fit in eight bytes; neither
    exception is caught. *)
Definition create_room (st : State) (room_data : RoomCreate.t)
    (uuid : string) (now : Z) : State * Response Room.t :=
  match RoomCreate.max_participants room_data with
  | None => (st, Raise internal_server_error)
  | Some max_participants =>
      let room :=
        Room.mk uuid (RoomCreate.name room_data) now [] max_participants in
      if fits_int64 max_participants
      then (set_db_rooms st (db_rooms st ++ [room]), Return room)
      else (st, Raise internal_server_error)
  end.

(** [GET /api/rooms/{room_id}] *)
Definition get_room (st : State) (room_id : string)
    : State * Response Room.t :=
  match find_one_room room_id (db_rooms st) with
  | None => (st, Raise (mkHTTPException 404 "Room not found"))
  | Some room => (st, Return room)
  end.

(** [POST /api/rooms/{room_id}/join].  The [TypeError] of [emit] is not
    caught: the route has then pushed and stored the participant, and
    the caller is answered 500. *)
Definition join_room (st : State) (room_id : string)
    (participant_data : ParticipantCreate.t)
    (uuid : string) (now : Z) : State * Response Participant.t :=
  match find_one_room room_id (db_rooms st) with
  | None => (st, Raise (mkHTTPException 404 "Room not found"))
  | Some room =>
      if (Room.max_participants room
            <=? Z.of_nat (length (Room.participants room)))%Z
      then (st, Raise (mkHTTPException 400 "Room is full"))
      else
        let participant :=
          Participant.mk uuid (ParticipantCreate.name participant_data)
            room_id now in
        let st1 :=
          set_db_rooms st
            (update_one_push room_id (Participant.id participant)
               (db_rooms st)) in
        let st2 :=
          set_db_participants st1 (db_participants st1 ++ [participant]) in
        let st3 :=
          emit st2 (participant_joined participant room_id)
            (Some room_id) None in
        if emit_raises st2 (participant_joined participant room_id)
        then (st3, Raise internal_server_error)
        else (st3, Return participant)
  end.

Section Predict.

(** [predict_sign]: the classifier, image to label and confidence;
    it answers [(None, 0.0)] when it fails. *)
Variable predict_sign : string → option string * float.

(** The body of the [try] block of [predict_sign_language].  [Raise]
    stands for whatever the block raises: the 404 of the route, or the
    [TypeError] of [emit], which comes after the caption is stored. *)
Definition predict_try (st : State) (request : PredictionRequest.t)
    (uuid : string) (now : Z) : State * Response Prediction :=
  let '(predicted_text, confidence) :=
    predict_sign (PredictionRequest.image_data request) in
  if truthy predicted_text && (threshold <? confidence)%float then
    match find_one_participant
            (PredictionRequest.participant_id request)
            (db_participants st) with
    | None => (st, Raise (mkHTTPException 404 "Participant not found"))
    | Some participant =>
        let caption :=
          Caption.mk uuid (default "" predicted_text)
            (Participant.name participant)
            (PredictionRequest.room_id request) now confidence in
        let st1 := set_db_captions st (db_captions st ++ [caption]) in
        let st2 :=
          emit st1 (new_caption caption)
            (Some (PredictionRequest.room_id request)) None in
        if emit_raises st1 (new_caption caption)
        then (st2, Raise internal_server_error)
        else (st2, Return (mkPrediction predicted_text confidence))
    end
  else (st, Return (mkPrediction None confidence)).

(** [POST /api/predict]: whatever the [try] block raises, the
    [except Exception] clause raises a 500 in its place. *)
Definition predict_sign_language (st : State)
    (request : PredictionRequest.t) (uuid : string) (now : Z)
    : State * Response Prediction :=
  match predict_try st request uuid now with
  | (st', Raise _) =>
      (st', Raise (mkHTTPException 500 "Prediction failed"))
  | (st', Return r) => (st', Return r)
  end.

(** [POST /api/predict] from the JSON body: the framework answers 422,
    without calling the route, when the body lacks a required field. *)
Definition post_predict (st : State) (body : gmap string string)
    (uuid : string) (now : Z) : State * Response Prediction :=
  match PredictionRequest.parse body with
  | None => (st, Raise (mkHTTPException 422 "Unprocessable Entity"))
  | Some request => predict_sign_language st request uuid now
  end.

End Predict.

(** [GET /api/] *)
Definition root (st : State) (model_loaded : bool)
    : State * Response (string * bool) :=
  (st, Return ("SignMeet API is running!", model_loaded)).

(** [GET /api/rooms/{room_id}/captions] *)
Definition get_room_captions (st : State) (room_id : string)
    : State * Response (list Caption.t) :=
  (st,
   Return
     (take 50
        (merge_sort newer_first
           (filter (λ c, Caption.room_id c = room_id) (db_captions st))))).

End Api.

(** ** The join route between its awaits

    [join_room] awaits four times: [find_one], [update_one],
    [insert_one] and [emit].  Between two awaits it runs alone; at an
    await another handler may run.  [start] is the route up to the
    answer of [find_one] and on to the next await; [resume] takes it from
    one await to the next. *)

Module JoinSteps.

Inductive Pending :=
| AwaitUpdateOne (room_id : string) (participant : Participant.t)
| AwaitInsertOne (room_id : string) (participant : Participant.t)
| AwaitEmit (room_id : string) (participant : Participant.t)
| Finished (response : Response Participant.t).

(** From the answer of [find_one], read in state [st], to the capacity
    check and the new participant. *)
Definition start (st : State) (room_id : string)
    (participant_data : ParticipantCreate.t) (uuid : string) (now : Z)
    : Pending :=
  match find_one_room room_id (db_rooms st) with
  | None => Finished (Raise (mkHTTPException 404 "Room not found"))
  | Some room =>
      if (Room.max_participants room
            <=? Z.of_nat (length (Room.participants room)))%Z
      then Finished (Raise (mkHTTPException 400 "Room is full"))
      else
        AwaitUpdateOne room_id
          (Participant.mk uuid (ParticipantCreate.name participant_data)
             room_id now)
  end.

(** The awaited operation takes effect on the state of the moment, and
    the route runs on to its next await. *)
Definition resume (st : State) (p : Pending) : State * Pending :=
  match p with
  | AwaitUpdateOne room_id participant =>
      (set_db_rooms st
         (update_one_push room_id (Participant.id participant)
            (db_rooms st)),
       AwaitInsertOne room_id participant)
  | AwaitInsertOne room_id participant =>
      (set_db_participants st (db_participants st ++ [participant]),
       AwaitEmit room_id participant)
  | AwaitEmit room_id participant =>
      (emit st (participant_joined participant room_id)
         (Some room_id) None,
       Finished
         (if emit_raises st (participant_joined participant room_id)
          then Raise internal_server_error
          else Return participant))
  | Finished response => (st, Finished response)
  end.

(** A join that no other handler interleaves with. *)
Definition alone (st : State) (room_id : string)
    (participant_data : ParticipantCreate.t) (uuid : string) (now : Z)
    : State * Pending :=
  let p0 := start st room_id participant_data uuid now in
  let '(st1, p1) := resume st p0 in
  let '(st2, p2) := resume st1 p1 in
  resume st2 p2.

(** Two joins whose [find_one] are both answered before either
    [update_one] takes effect; after that the first runs to its end,
    then the second. *)
Definition both_read_first (st : State) (room_id : string)
    (data_a data_b : ParticipantCreate.t) (uuid_a uuid_b : string)
    (now_a now_b : Z) : State * Pending * Pending :=
  let a0 := start st room_id data_a uuid_a now_a in
  let b0 := start st room_id data_b uuid_b now_b in
  let '(st1, a1) := resume st a0 in
  let '(st2, a2) := resume st1 a1 in
  let '(st3, a3) := resume st2 a2 in
  let '(st4, b1) := resume st3 b0 in
  let '(st5, b2) := resume st4 b1 in
  let '(st6, b3) := resume st5 b2 in
  (st6, a3, b3).

End JoinSteps.

(** ** Socket.IO event handlers

    [data] is the dictionary the client sent; [data !! k] is
    [data.get(k)].  The transport calls a handler only for a sid that is
    connected. *)

Module Events.

Definition connect (st : State) (sid : string) : State := st.

(** The handler only writes a log line. *)
Definition disconnect (st : State) (sid : string) : State := st.

Definition join_room (st : State) (sid : string)
    (data : gmap string string) : State :=
  let room_id := data !! "room_id" in
  let participant_id := data !! "participant_id" in
  if truthy room_id then
    let st1 :=
      set_sio_rooms st (Sio.enter_room (sio_rooms st) sid room_id) in
    emit st1 (user_joined sid participant_id) room_id (Some sid)
  else st.

Definition leave_room (st : State) (sid : string)
    (data : gmap string string) : State :=
  let room_id := data !! "room_id" in
  if truthy room_id then
    let st1 :=
      set_sio_rooms st (Sio.leave_room (sio_rooms st) sid room_id) in
    emit st1 (user_left sid) room_id (Some sid)
  else st.

Definition webrtc_offer (st : State) (sid : string)
    (data : gmap string string) : State :=
  let target_sid := data !! "target_sid" in
  let offer := data !! "offer" in
  emit st (webrtc_offer_event offer sid) target_sid None.

Definition webrtc_answer (st : State) (sid : string)
    (data : gmap string string) : State :=
  let target_sid := data !! "target_sid" in
  let answer := data !! "answer" in
  emit st (webrtc_answer_event answer sid) target_sid None.

Definition webrtc_ice_candidate (st : State) (sid : string)
    (data : gmap string string) : State :=
  let target_sid := data !! "target_sid" in
  let candidate := data !! "candidate" in
  emit st (webrtc_ice_candidate_event candidate sid) target_sid None.

Definition send_message (st : State) (sid : string)
    (data : gmap string string) (now : Z) : State :=
  let room_id := data !! "room_id" in
  let message := data !! "message" in
  let participant_name := data !! "participant_name" in
  emit st (new_message message participant_name now sid) room_id None.

End Events.

(** ** The connection life cycle

    What the Socket.IO server does around the two life-cycle handlers:
    a new client is registered with the manager before [connect] runs,
    and the manager forgets a client after [disconnect] has run. *)

Module Transport.

Definition on_connect (st : State) (sid : string) : State :=
  Events.connect (set_sio_rooms st (Sio.connect (sio_rooms st) sid)) sid.

Definition on_disconnect (st : State) (sid : string) : State :=
  let st1 := Events.disconnect st sid in
  set_sio_rooms st1 (Sio.disconnect (sio_rooms st1) sid).

End Transport.

Definition init : State := mkState [] [] [] ∅ [].

(** ** What the client sees *)

(** A number that JSON can carry. *)
Definition finite (f : float) : bool :=
  negb (is_nan f) && negb (is_infinity f).

(** The status a client sees.  What a route returns is encoded as JSON
    by the framework, after the route: [renders] tells whether this
    succeeds, and the answer is 500 when it does not.  An exception is
    answered with its status. *)
Definition status_code {A : Type} (renders : A → bool) (r : Response A)
    : Z :=
  match r with
  | Return a => if renders a then 200 else 500
  | Raise (mkHTTPException code _) => code
  end.

(** The body of the answer, when it is the value returned. *)
Definition body_of {A : Type} (renders : A → bool) (r : Response A)
    : option A :=
  match r with
  | Return a => if renders a then Some a else None
  | Raise _ => None
  end.

(** Strings, integers and dates are encoded; a [float] is when it is
    finite. *)
Definition renders_always {A : Type} (a : A) : bool := true.

Definition renders_prediction (p : Prediction) : bool :=
  finite (confidence p).

Definition renders_captions (captions : list Caption.t) : bool :=
  forallb (λ c, finite (Caption.confidence c)) captions.

(** ** The API tester of [backend_test.py] *)

Module SignMeetAPITester.

Record t := mk {
  tests_run : nat;
  tests_passed : nat;
  room_id : option string;
  participant_id : option string
}.

(** [__init__] *)
Definition new : t := mk 0 0 None None.

(** An id the tests go on with: [not self.room_id] holds of an id that
    is missing or empty. *)
Definition usable (id : option string) : option string :=
  match id with
  | Some s => if decide (s = "") then None else Some s
  | None => None
  end.

(** [run_test]: [response] is [None] when the request raised.  The
    answer is the tester, the success flag and, on success, the value
    the response carries. *)
Definition run_test {A : Type} (self : t) (expected_status : Z)
    (renders : A → bool) (response : option (Response A))
    : t * bool * option A :=
  let counted :=
    mk (S (tests_run self)) (tests_passed self) (room_id self)
      (participant_id self) in
  match response with
  | None => (counted, false, None)
  | Some r =>
      if decide (status_code renders r = expected_status) then
        (mk (tests_run counted) (S (tests_passed counted))
           (room_id counted) (participant_id counted),
         true, body_of renders r)
      else (counted, false, None)
  end.

(** What the environment supplies during one run of [main]: the names
    made from the clock, and the uuids and clock readings of the
    server. *)
Record Env := mkEnv {
  room_name : string;
  participant_name : string;
  room_uuid : string;
  participant_uuid : string;
  caption_uuid : string;
  spare_uuid : string;
  room_now : Z;
  participant_now : Z;
  caption_now : Z;
  spare_now : Z;
  model_loaded : bool
}.

Definition test_image_b64 : string :=
  "data:image/jpeg;base64,/9j/4AAQSkZJRgABAQEAYABgAAD/2wBDAAEBAQEBAQEBAQEBAQEBAQEBAQEBAQEBAQEBAQEBAQEBAQEBAQEBAQEBAQEBAQEBAQEBAQEBAQEBAQEBAQEBAQH/2wBDAQEBAQEBAQEBAQEBAQEBAQEBAQEBAQEBAQEBAQEBAQEBAQEBAQEBAQEBAQEBAQEBAQEBAQEBAQEBAQEBAQEBAQH/wAARCAABAAEDASIAAhEBAxEB/8QAFQABAQAAAAAAAAAAAAAAAAAAAAv/xAAUEAEAAAAAAAAAAAAAAAAAAAAA/8QAFQEBAQAAAAAAAAAAAAAAAAAAAAX/xAAUEQEAAAAAAAAAAAAAAAAAAAAA/9oADAMBAAIRAxEAPwA/8A".

Definition test_api_root (self : t) (st : State) (env : Env)
    : t * State * bool :=
  let result := Api.root st (model_loaded env) in
  let '(self', success, _) :=
    run_test self 200 renders_always (Some result.2) in
  (self', result.1, success).

Definition test_create_room (self : t) (st : State) (env : Env)
    : t * State * bool :=
  let result :=
    Api.create_room st (RoomCreate.mk (room_name env) (Some 6%Z))
      (room_uuid env) (room_now env) in
  let '(self', success, body) :=
    run_test self 200 renders_always (Some result.2) in
  match body with
  | Some room =>
      (mk (tests_run self') (tests_passed self') (Some (Room.id room))
         (participant_id self'),
       result.1, success)
  | None => (self', result.1, success)
  end.

Definition test_get_room (self : t) (st : State) (env : Env)
    : t * State * bool :=
  match usable (room_id self) with
  | None => (self, st, false)
  | Some rid =>
      let result := Api.get_room st rid in
      let '(self', success, _) :=
        run_test self 200 renders_always (Some result.2) in
      (self', result.1, success)
  end.

Definition test_join_room (self : t) (st : State) (env : Env)
    : t * State * bool :=
  match usable (room_id self) with
  | None => (self, st, false)
  | Some rid =>
      let result :=
        Api.join_room st rid (ParticipantCreate.mk (participant_name env))
          (participant_uuid env) (participant_now env) in
      let '(self', success, body) :=
        run_test self 200 renders_always (Some result.2) in
      match body with
      | Some participant =>
          (mk (tests_run self') (tests_passed self') (room_id self')
             (Some (Participant.id participant)),
           result.1, success)
      | None => (self', result.1, success)
      end
  end.

Definition test_join_nonexistent_room (self : t) (st : State) (env : Env)
    : t * State * bool :=
  let result :=
    Api.join_room st "nonexistent-room-id"
      (ParticipantCreate.mk "Test Participant") (spare_uuid env)
      (spare_now env) in
  let '(self', success, _) :=
    run_test self 404 renders_always (Some result.2) in
  (self', result.1, success).

Definition test_predict_sign_language
    (predict_sign : string → option string * float)
    (self : t) (st : State) (env : Env) : t * State * bool :=
  match usable (room_id self), usable (participant_id self) with
  | Some rid, Some pid =>
      let result :=
        Api.post_predict predict_sign st
          {[ "image_data" := test_image_b64; "room_id" := rid;
             "participant_id" := pid ]}
          (caption_uuid env) (caption_now env) in
      let '(self', success, _) :=
        run_test self 200 renders_prediction (Some result.2) in
      (self', result.1, success)
  | _, _ => (self, st, false)
  end.

Definition test_get_room_captions (self : t) (st : State) (env : Env)
    : t * State * bool :=
  match usable (room_id self) with
  | None => (self, st, false)
  | Some rid =>
      let result := Api.get_room_captions st rid in
      let '(self', success, _) :=
        run_test self 200 renders_captions (Some result.2) in
      (self', result.1, success)
  end.

(** [test_invalid_endpoints]: the body of the second request has no
    [room_id] and no [participant_id]. *)
Definition test_invalid_endpoints
    (predict_sign : string → option string * float)
    (self : t) (st : State) (env : Env) : t * State * bool :=
  let result1 := Api.get_room st "invalid-room-id" in
  let '(self1, success1, _) :=
    run_test self 404 renders_always (Some result1.2) in
  let result2 :=
    Api.post_predict predict_sign result1.1
      {[ "image_data" := "invalid" ]} (spare_uuid env) (spare_now env) in
  let '(self2, success2, _) :=
    run_test self1 422 renders_prediction (Some result2.2) in
  (self2, result2.1, success1 && success2).

(** The test sequence of [main] and its exit status. *)
Definition main (predict_sign : string → option string * float)
    (st : State) (env : Env) : t * State * Z :=
  let '(t1, st1, _) := test_api_root new st env in
  let '(t2, st2, _) := test_create_room t1 st1 env in
  let '(t3, st3, _) := test_get_room t2 st2 env in
  let '(t4, st4, _) := test_join_room t3 st3 env in
  let '(t5, st5, _) := test_join_nonexistent_room t4 st4 env in
  let '(t6, st6, _) := test_predict_sign_language predict_sign t5 st5 env in
  let '(t7, st7, _) := test_get_room_captions t6 st6 env in
  let '(t8, st8, _) := test_invalid_endpoints predict_sign t7 st7 env in
  (t8, st8,
   if decide (tests_passed t8 = tests_run t8) then 0%Z else 1%Z).

End SignMeetAPITester.

(** * Vocabulary of the properties, and the states of the examples *)

(** A room document respects its capacity. *)
Definition room_ok (r : Room.t) : Prop :=
  (Z.of_nat (length (Room.participants r)) ≤ Room.max_participants r)%Z.

Definition capacity_respected (st : State) : Prop :=
  Forall room_ok (db_rooms st).

(** One [POST /api/rooms/{room_id}/join] with what the environment
    supplied to it. *)
Record JoinCall := mkJoinCall {
  call_room_id : string;
  call_data : ParticipantCreate.t;
  call_uuid : string;
  call_now : Z
}.

(** Join requests served one after the other. *)
Fixpoint run_joins (st : State) (calls : list JoinCall) : State :=
  match calls with
  | [] => st
  | c :: calls' =>
      run_joins
        (Api.join_room st (call_room_id c) (call_data c)
           (call_uuid c) (call_now c)).1
        calls'
  end.

(** What join requests may do to a room document: the id and the
    capacity stay, and the participant list gets no longer than the
    capacity, or than it was. *)
Definition within_capacity (r r' : Room.t) : Prop :=
  Room.id r' = Room.id r
  ∧ Room.max_participants r' = Room.max_participants r
  ∧ (Z.of_nat (length (Room.participants r'))
       ≤ Z.max (Z.of_nat (length (Room.participants r)))
           (Room.max_participants r))%Z.

(** A room "Demo" for two, with Alice and Bob in it. *)
Definition demo_room : Room.t :=
  Room.mk "r-demo" "Demo" 1000 ["p-alice"; "p-bob"] 2.

Definition demo_full : State :=
  mkState [demo_room]
    [Participant.mk "p-alice" "Alice" "r-demo" 1001;
     Participant.mk "p-bob" "Bob" "r-demo" 1002]
    [] ∅ [].

(** The join requests of Alice and Bob for the room "Demo". *)
Definition demo_calls : list JoinCall :=
  [mkJoinCall "r-demo" (ParticipantCreate.mk "Alice") "p-alice" 1001;
   mkJoinCall "r-demo" (ParticipantCreate.mk "Bob") "p-bob" 1002].

(** The caption the route builds once the gate is passed. *)
Definition caption_of (request : PredictionRequest.t) (uuid : string)
    (now : Z) (text : string) (conf : float)
    (participant : Participant.t) : Caption.t :=
  Caption.mk uuid text (Participant.name participant)
    (PredictionRequest.room_id request) now conf.

Definition conf_09 : float := 0x1.ccccccccccccdp-1%float.

Definition alice : Participant.t :=
  Participant.mk "p-alice" "Alice" "r-demo" 1001.

(** Alice's connection has entered the Socket.IO room of "r-demo". *)
Definition demo_live : State :=
  mkState [demo_room]
    [alice; Participant.mk "p-bob" "Bob" "r-demo" 1002]
    []
    (Sio.enter_room (Sio.connect ∅ "sid-alice") "sid-alice"
       (Some "r-demo"))
    [].

Definition frame_of_alice : PredictionRequest.t :=
  PredictionRequest.mk "data:image/jpeg;base64,/9j/4AAQ" "r-demo" "p-alice".

(** Alice, a participant of "r-demo", captions into a room that does not
    exist. *)
Definition frame_for_elsewhere : PredictionRequest.t :=
  PredictionRequest.mk "data:image/jpeg;base64,/9j/4AAQ" "r-elsewhere"
    "p-alice".

Definition leave_demo : gmap string string :=
  {[ "room_id" := "r-demo"; "participant_id" := "p-alice" ]}.

(** Alice's and Bob's connections are both in the Socket.IO room of
    "r-demo". *)
Definition demo_pair : State :=
  Events.join_room
    (Transport.on_connect
       (Events.join_room
          (Transport.on_connect
             (mkState [demo_room]
                [alice; Participant.mk "p-bob" "Bob" "r-demo" 1002]
                [] ∅ [])
             "sid-alice")
          "sid-alice"
          {[ "room_id" := "r-demo"; "participant_id" := "p-alice" ]})
       "sid-bob")
    "sid-bob"
    {[ "room_id" := "r-demo"; "participant_id" := "p-bob" ]}.

(** A connection that has joined "r-demo" and then "r-other". *)
Definition demo_two_rooms : State :=
  Events.join_room
    (Events.join_room (Transport.on_connect init "sid-alice") "sid-alice"
       {[ "room_id" := "r-demo" ]})
    "sid-alice" {[ "room_id" := "r-other" ]}.

(** A room for six that Carol's connection has already entered, before
    Carol joins the room over REST. *)
Definition demo_carol : State :=
  Events.join_room
    (Transport.on_connect
       (mkState [Room.mk "r-six" "Six" 1000 [] 6] [] [] ∅ [])
       "sid-carol")
    "sid-carol" {[ "room_id" := "r-six" ]}.

(** Dave's connection is live too, and in no room yet. *)
Definition demo_carol_dave : State :=
  Transport.on_connect demo_carol "sid-dave".

Definition join_dave : gmap string string :=
  {[ "room_id" := "r-six"; "participant_id" := "p-dave" ]}.

(** Three connections; nobody has entered any room. *)
Definition demo_peers : State :=
  Transport.on_connect
    (Transport.on_connect (Transport.on_connect init "sid-x") "sid-s")
    "sid-e".

Definition offer_for_x : gmap string string :=
  {[ "target_sid" := "sid-x"; "offer" := "v=0 o=- 46117317 2 IN IP4" ]}.

(** ** Requests and events, as the routers dispatch them *)

Inductive Request :=
| CreateRoom (room_data : RoomCreate.t) (uuid : string) (now : Z)
| GetRoom (room_id : string)
| JoinRoom (room_id : string) (participant_data : ParticipantCreate.t)
    (uuid : string) (now : Z)
| Predict (request : PredictionRequest.t) (uuid : string) (now : Z)
| GetRoomCaptions (room_id : string)
| Connect (sid : string)
| Disconnect (sid : string)
| EmitJoinRoom (sid : string) (data : gmap string string)
| EmitLeaveRoom (sid : string) (data : gmap string string)
| EmitWebrtcOffer (sid : string) (data : gmap string string)
| EmitWebrtcAnswer (sid : string) (data : gmap string string)
| EmitWebrtcIceCandidate (sid : string) (data : gmap string string)
| EmitSendMessage (sid : string) (data : gmap string string) (now : Z).

(** A connection is live from its [connect] to its [disconnect]: it is
    then in the room named [None]. *)
Definition connected (st : State) (sid : string) : Prop :=
  sid ∈ Sio.members (sio_rooms st) None.

#[global] Instance connected_dec (st : State) (sid : string) :
  Decision (connected st sid).
Proof. unfold connected. apply _. Defined.

(** The server serves one request or event.  An event is handed to its
    handler only when it comes from a live connection; a sid connects
    only while it is not live. *)
Definition step (predict_sign : string → option string * float)
    (st : State) (r : Request) : State :=
  match r with
  | CreateRoom room_data uuid now =>
      (Api.create_room st room_data uuid now).1
  | GetRoom room_id => (Api.get_room st room_id).1
  | JoinRoom room_id participant_data uuid now =>
      (Api.join_room st room_id participant_data uuid now).1
  | Predict request uuid now =>
      (Api.predict_sign_language predict_sign st request uuid now).1
  | GetRoomCaptions room_id => (Api.get_room_captions st room_id).1
  | Connect sid =>
      if decide (connected st sid) then st else Transport.on_connect st sid
  | Disconnect sid =>
      if decide (connected st sid) then Transport.on_disconnect st sid
      else st
  | EmitJoinRoom sid data =>
      if decide (connected st sid) then Events.join_room st sid data
      else st
  | EmitLeaveRoom sid data =>
      if decide (connected st sid) then Events.leave_room st sid data
      else st
  | EmitWebrtcOffer sid data =>
      if decide (connected st sid) then Events.webrtc_offer st sid data
      else st
  | EmitWebrtcAnswer sid data =>
      if decide (connected st sid) then Events.webrtc_answer st sid data
      else st
  | EmitWebrtcIceCandidate sid data =>
      if decide (connected st sid)
      then Events.webrtc_ice_candidate st sid data
      else st
  | EmitSendMessage sid data now =>
      if decide (connected st sid) then Events.send_message st sid data now
      else st
  end.

(** Requests and events served one after the other. *)
Fixpoint run (predict_sign : string → option string * float)
    (st : State) (rs : list Request) : State :=
  match rs with
  | [] => st
  | r :: rs' => run predict_sign (step predict_sign st r) rs'
  end.

(** The answers to join requests served one after the other. *)
Fixpoint join_responses (st : State) (calls : list JoinCall)
    : list (Response Participant.t) :=
  match calls with
  | [] => []
  | c :: calls' =>
      let result :=
        Api.join_room st (call_room_id c) (call_data c)
          (call_uuid c) (call_now c) in
      result.2 :: join_responses result.1 calls'
  end.

(** The participant record a join request creates. *)
Definition participant_of (c : JoinCall) : Participant.t :=
  Participant.mk (call_uuid c) (ParticipantCreate.name (call_data c))
    (call_room_id c) (call_now c).

(** The participant list is no longer than the capacity, a capacity
    below zero counting as zero. *)
Definition room_within_bound (r : Room.t) : Prop :=
  (Z.of_nat (length (Room.participants r))
     ≤ Z.max 0 (Room.max_participants r))%Z.

(** Every id in a participant list has a record, and the record names
    the room. *)
Definition participants_have_records (st : State) : Prop :=
  ∀ room pid,
    room ∈ db_rooms st → pid ∈ Room.participants room →
    ∃ p, p ∈ db_participants st
         ∧ Participant.id p = pid
         ∧ Participant.room_id p = Room.id room.

(** Every record is listed in the room document that [find_one] gives
    for its room id. *)
Definition records_are_listed (st : State) : Prop :=
  ∀ p,
    p ∈ db_participants st →
    ∃ room, find_one_room (Participant.room_id p) (db_rooms st) = Some room
            ∧ Participant.id p ∈ Room.participants room.

Definition caption_passed_gate (c : Caption.t) : Prop :=
  (threshold <? Caption.confidence c)%float = true ∧ Caption.text c ≠ "".

(** What was announced is in the store. *)
Definition announced_is_stored (st : State) : Prop :=
  ∀ m,
    m ∈ outbox st →
    match event m with
    | new_caption c => c ∈ db_captions st
    | participant_joined p room_id =>
        p ∈ db_participants st ∧ Participant.room_id p = room_id
    | _ => True
    end.

(** A room document after some requests: the same but for participants
    pushed at the end of its list. *)
Definition room_grown (r r' : Room.t) : Prop :=
  Room.id r' = Room.id r
  ∧ Room.name r' = Room.name r
  ∧ Room.created_at r' = Room.created_at r
  ∧ Room.max_participants r' = Room.max_participants r
  ∧ Room.participants r `prefix_of` Room.participants r'.

(** The room collection after some requests: the documents it had, each
    grown in place, and new documents after them. *)
Definition rooms_grown (l l' : list Room.t) : Prop :=
  ∃ l1 l2, l' = l1 ++ l2 ∧ Forall2 room_grown l l1.

(** Only live connections are in rooms. *)
Definition members_connected (st : State) : Prop :=
  ∀ room sid, sid ∈ Sio.members (sio_rooms st) room → connected st sid.

(** A packet that announces neither a caption nor a participant. *)
Definition plain_packet (m : Emitted) : Prop :=
  is_new_caption (event m) = false
  ∧ is_participant_joined (event m) = false.

(** A later state of the server: the stores and the outbox have only
    been added to. *)
Definition grown (st st' : State) : Prop :=
  rooms_grown (db_rooms st) (db_rooms st')
  ∧ db_participants st `prefix_of` db_participants st'
  ∧ db_captions st `prefix_of` db_captions st'
  ∧ outbox st `prefix_of` outbox st'.

(** The requests that come over REST. *)
Definition is_rest (r : Request) : bool :=
  match r with
  | CreateRoom _ _ _ | GetRoom _ | JoinRoom _ _ _ _ | Predict _ _ _
  | GetRoomCaptions _ => true
  | _ => false
  end.

(** A request that is no [join_room] and no [leave_room] event with
    [room] as its room id. *)
Definition leaves_room_alone (room : string) (r : Request) : Prop :=
  match r with
  | EmitJoinRoom _ data | EmitLeaveRoom _ data =>
      data !! "room_id" ≠ Some room
  | _ => True
  end.

(** The room named by a sid holds the connection of that sid while it
    is live, and nobody else. *)
Definition own_room_intact (st : State) (sid : string) : Prop :=
  (connected st sid → Sio.members (sio_rooms st) (Some sid) = [sid])
  ∧ (¬ connected st sid → Sio.members (sio_rooms st) (Some sid) = []).

(** * Properties *)


(** ** Comparing binary64 numbers *)




(** ** Truth values *)

Lemma truthy_Some (s : string) : s ≠ "" → truthy (Some s) = true.
Proof. intros H. simpl. unfold str_truthy. by case_decide. Qed.

Lemma truthy_true (o : option string) :
  truthy o = true → ∃ s, o = Some s ∧ s ≠ "".
Proof.
  destruct o as [s|]; simpl; [|done]. unfold str_truthy.
  case_decide; [done|]. eauto.
Qed.

Lemma truthy_false (o : option string) :
  truthy o = false ↔ o = None ∨ o = Some "".
Proof.
  destruct o as [s|]; simpl; unfold str_truthy.
  - case_decide; subst; split; try done; eauto.
    intros [?|?]; congruence.
  - split; eauto.
Qed.

(** ** The room manager *)

Lemma targets_no_skip (rooms : gmap (option string) (list string))
    (room : option string) :
  Sio.targets rooms room None = Sio.members rooms room.
Proof.
  unfold Sio.targets. induction (Sio.members rooms room) as [|x l IH].
  - done.
  - rewrite filter_cons_True by done. by rewrite IH.
Qed.

Lemma elem_of_targets (rooms : gmap (option string) (list string))
    (room skip : option string) (x : string) :
  x ∈ Sio.targets rooms room skip ↔
  x ∈ Sio.members rooms room ∧ Some x ≠ skip.
Proof. unfold Sio.targets. rewrite list_elem_of_filter. tauto. Qed.

Lemma elem_of_add_member (sid x : string) (l : list string) :
  x ∈ Sio.add_member sid l ↔ x = sid ∨ x ∈ l.
Proof.
  unfold Sio.add_member. case_decide.
  - split; [tauto|]. intros [->|?]; done.
  - rewrite elem_of_app, list_elem_of_singleton. tauto.
Qed.

Lemma elem_of_remove_member (sid x : string) (l : list string) :
  x ∈ Sio.remove_member sid l ↔ x ∈ l ∧ x ≠ sid.
Proof. unfold Sio.remove_member. rewrite list_elem_of_filter. tauto. Qed.

Lemma remove_member_absent (sid : string) (l : list string) :
  sid ∉ l → Sio.remove_member sid l = l.
Proof.
  unfold Sio.remove_member. induction l as [|x l IH]; intros H; [done|].
  rewrite not_elem_of_cons in H. destruct H as [Hx Hl].
  rewrite filter_cons_True by done. by rewrite IH.
Qed.

Lemma members_enter_room (rooms : gmap (option string) (list string))
    (sid : string) (room room' : option string) :
  Sio.members (Sio.enter_room rooms sid room) room' =
  if decide (room = room')
  then Sio.add_member sid (Sio.members rooms room)
  else Sio.members rooms room'.
Proof.
  unfold Sio.enter_room. unfold Sio.members at 1.
  rewrite lookup_insert. by case_decide.
Qed.

Lemma members_leave_room (rooms : gmap (option string) (list string))
    (sid : string) (room room' : option string) :
  Sio.members (Sio.leave_room rooms sid room) room' =
  if decide (room = room')
  then Sio.remove_member sid (Sio.members rooms room)
  else Sio.members rooms room'.
Proof.
  unfold Sio.leave_room, Sio.members.
  destruct (rooms !! room) as [l|] eqn:Hl; simpl.
  - case_decide as Hin.
    + destruct (Sio.remove_member sid l) as [|y l'] eqn:Hr.
      * rewrite lookup_delete. case_decide; simpl; done.
      * rewrite lookup_insert. case_decide; simpl; done.
    + case_decide; subst; [|done].
      rewrite Hl. simpl. by rewrite remove_member_absent.
  - case_decide; subst; [|done]. by rewrite Hl.
Qed.

Lemma leave_room_absent (rooms : gmap (option string) (list string))
    (sid : string) (room : option string) :
  sid ∉ Sio.members rooms room → Sio.leave_room rooms sid room = rooms.
Proof.
  unfold Sio.leave_room, Sio.members.
  destruct (rooms !! room) as [l|]; simpl; [|done].
  intros H. by case_decide.
Qed.

Lemma leave_room_idempotent (rooms : gmap (option string) (list string))
    (sid : string) (room : option string) :
  Sio.leave_room (Sio.leave_room rooms sid room) sid room =
  Sio.leave_room rooms sid room.
Proof.
  apply leave_room_absent. rewrite members_leave_room.
  rewrite decide_True by done. rewrite elem_of_remove_member. tauto.
Qed.

Lemma members_disconnect (rooms : gmap (option string) (list string))
    (sid : string) (room : option string) :
  Sio.members (Sio.disconnect rooms sid) room =
  Sio.remove_member sid (Sio.members rooms room).
Proof.
  unfold Sio.disconnect, Sio.members. rewrite lookup_omap.
  destruct (rooms !! room) as [l|]; simpl; [|done].
  by destruct (Sio.remove_member sid l).
Qed.

(** ** Joining a room over REST *)

Lemma find_one_room_None (room_id : string) (coll : list Room.t) :
  find_one_room room_id coll = None ↔
  ∀ r, r ∈ coll → Room.id r ≠ room_id.
Proof.
  induction coll as [|r coll IH]; simpl.
  - split; [|done]. intros _ r Hr. by apply elem_of_nil in Hr.
  - case_decide as Hid.
    + split; [done|]. intros H. exfalso. apply (H r); [left|done].
    + rewrite IH. split.
      * intros H r' Hr'. apply elem_of_cons in Hr' as [->|Hr']; auto.
      * intros H r' Hr'. apply H. by right.
Qed.

Lemma find_one_room_Some (room_id : string) (coll : list Room.t)
    (room : Room.t) :
  find_one_room room_id coll = Some room →
  room ∈ coll ∧ Room.id room = room_id.
Proof.
  induction coll as [|r coll IH]; simpl; [done|].
  case_decide as Hid.
  - intros [= ->]. split; [left|done].
  - intros H. destruct (IH H). split; [by right|done].
Qed.

Lemma update_one_push_ok (room_id pid : string) (coll : list Room.t)
    (room : Room.t) :
  find_one_room room_id coll = Some room →
  (Z.of_nat (length (Room.participants room))
     < Room.max_participants room)%Z →
  Forall room_ok coll →
  Forall room_ok (update_one_push room_id pid coll).
Proof.
  induction coll as [|r coll IH]; simpl; [done|].
  intros Hfind Hlt Hok. apply Forall_cons in Hok as [Hr Hcoll].
  case_decide as Hid.
  - injection Hfind as ->. constructor; [|done].
    unfold room_ok, push_participant. simpl.
    rewrite length_app. simpl. lia.
  - constructor; auto.
Qed.

Lemma join_room_full (st : State) (room_id : string)
    (data : ParticipantCreate.t) (uuid : string) (now : Z)
    (room : Room.t) :
  find_one_room room_id (db_rooms st) = Some room →
  (Room.max_participants room
     ≤ Z.of_nat (length (Room.participants room)))%Z →
  Api.join_room st room_id data uuid now =
  (st, Raise (mkHTTPException 400 "Room is full")).
Proof.
  intros Hfind Hfull. unfold Api.join_room. rewrite Hfind.
  by rewrite (proj2 (Z.leb_le _ _) Hfull).
Qed.

Lemma join_room_keeps_capacity (st : State) (room_id : string)
    (data : ParticipantCreate.t) (uuid : string) (now : Z) :
  capacity_respected st →
  capacity_respected (Api.join_room st room_id data uuid now).1.
Proof.
  intros Hok. unfold Api.join_room.
  destruct (find_one_room room_id (db_rooms st)) as [room|] eqn:Hfind;
    [|done].
  destruct (Z.leb_spec (Room.max_participants room)
              (Z.of_nat (length (Room.participants room)))) as [Hfull|Hfree];
    [done|].
  unfold capacity_respected. destruct (emit_raises _ _); simpl;
    by apply update_one_push_ok with room.
Qed.

Lemma run_joins_keeps_capacity (calls : list JoinCall) (st : State) :
  capacity_respected st → capacity_respected (run_joins st calls).
Proof.
  revert st. induction calls as [|c calls IH]; intros st Hok; simpl.
  - done.
  - apply IH. by apply join_room_keeps_capacity.
Qed.

Lemma within_capacity_refl (coll : list Room.t) :
  Forall2 within_capacity coll coll.
Proof.
  apply Forall_Forall2_diag, Forall_forall. intros r _.
  unfold within_capacity. split_and!; try done. lia.
Qed.

Lemma within_capacity_trans (l1 l2 l3 : list Room.t) :
  Forall2 within_capacity l1 l2 → Forall2 within_capacity l2 l3 →
  Forall2 within_capacity l1 l3.
Proof.
  intros H12. revert l3. induction H12 as [|r1 r2 l1 l2 Hr H12 IH];
    intros l3 H23; inversion H23 as [|? r3 ? l3' Hr' H23']; subst.
  - constructor.
  - constructor; [|by apply IH].
    destruct Hr as (Hid & Hmax & Hlen), Hr' as (Hid' & Hmax' & Hlen').
    unfold within_capacity. split_and!; try congruence. lia.
Qed.

Lemma update_one_push_within (room_id pid : string) (coll : list Room.t)
    (room : Room.t) :
  find_one_room room_id coll = Some room →
  (Z.of_nat (length (Room.participants room))
     < Room.max_participants room)%Z →
  Forall2 within_capacity coll (update_one_push room_id pid coll).
Proof.
  induction coll as [|r coll IH]; simpl; [done|].
  intros Hfind Hlt. case_decide as Hid.
  - injection Hfind as ->. constructor; [|apply within_capacity_refl].
    unfold within_capacity, push_participant. simpl.
    rewrite length_app. simpl. split_and!; try done. lia.
  - constructor; [|by apply IH].
    unfold within_capacity. split_and!; try done. lia.
Qed.

Lemma join_room_within_capacity (st : State) (room_id : string)
    (data : ParticipantCreate.t) (uuid : string) (now : Z) :
  Forall2 within_capacity (db_rooms st)
    (db_rooms (Api.join_room st room_id data uuid now).1).
Proof.
  unfold Api.join_room.
  destruct (find_one_room room_id (db_rooms st)) as [room|] eqn:Hfind;
    [|apply within_capacity_refl].
  destruct (Z.leb_spec (Room.max_participants room)
              (Z.of_nat (length (Room.participants room)))) as [Hfull|Hfree];
    [apply within_capacity_refl|].
  destruct (emit_raises _ _); simpl;
    by apply update_one_push_within with room.
Qed.

Lemma run_joins_within_capacity (calls : list JoinCall) (st : State) :
  Forall2 within_capacity (db_rooms st) (db_rooms (run_joins st calls)).
Proof.
  revert st. induction calls as [|c calls IH]; intros st; simpl.
  - apply within_capacity_refl.
  - eapply within_capacity_trans; [|apply IH].
    apply join_room_within_capacity.
Qed.

(** C1, amended.  A join request for a room whose participant list has
    (at least) [max_participants] entries is refused with 400 "Room is
    full" and the whole server state, in particular the room's
    participant list and the participant store, is the one before the
    request.  Join requests served one after the other keep
    [|participants| <= max_participants] in every room where it holds,
    and from any state they never make a participant list longer than
    the larger of its earlier length and the room's capacity. *)
Theorem join_room_full_is_refused_and_capacity_is_kept :
  (∀ (st : State) (room_id : string) (data : ParticipantCreate.t)
      (uuid : string) (now : Z) (room : Room.t),
      find_one_room room_id (db_rooms st) = Some room →
      (Room.max_participants room
         ≤ Z.of_nat (length (Room.participants room)))%Z →
      Api.join_room st room_id data uuid now =
      (st, Raise (mkHTTPException 400 "Room is full")))
  ∧ (∀ (st : State) (calls : list JoinCall),
      capacity_respected st → capacity_respected (run_joins st calls))
  ∧ (∀ (st : State) (calls : list JoinCall),
      Forall2 within_capacity (db_rooms st)
        (db_rooms (run_joins st calls))).
Proof.
  split_and!.
  - intros. by apply join_room_full with room.
  - intros. by apply run_joins_keeps_capacity.
  - intros. apply run_joins_within_capacity.
Qed.

Lemma join_room_full_is_refused_and_capacity_is_kept_witness :
  Api.join_room demo_full "r-demo" (ParticipantCreate.mk "Carol")
    "p-carol" 1003 =
  (demo_full, Raise (mkHTTPException 400 "Room is full"))
  ∧ capacity_respected
      (run_joins demo_full
         [mkJoinCall "r-demo" (ParticipantCreate.mk "Carol") "p-carol" 1003;
          mkJoinCall "r-demo" (ParticipantCreate.mk "Dave") "p-dave" 1004]).
Proof.
  split.
  - apply (proj1 join_room_full_is_refused_and_capacity_is_kept
             demo_full "r-demo" (ParticipantCreate.mk "Carol") "p-carol"
             1003%Z demo_room).
    + reflexivity.
    + simpl. lia.
  - apply (proj1 (proj2 join_room_full_is_refused_and_capacity_is_kept)).
    constructor; [|constructor]. unfold room_ok. simpl. lia.
Defined.

(** C1 as stated fails: a room is created with whatever capacity the
    client sent.  The room created with capacity -1 has more participants
    than its capacity from the start, and still has after a join request,
    which is refused. *)
Lemma room_below_zero_exceeds_its_capacity :
  let created :=
    (Api.create_room init (RoomCreate.mk "Demo" (Some (-1)%Z))
       "r-demo" 1000).1 in
  let call := mkJoinCall "r-demo" (ParticipantCreate.mk "Alice")
                "p-alice" 1001 in
  db_rooms created = [Room.mk "r-demo" "Demo" 1000 [] (-1)]
  ∧ join_responses created [call] =
      [Raise (mkHTTPException 400 "Room is full")]
  ∧ ¬ capacity_respected (run_joins created [call]).
Proof.
  split_and!; [done..|].
  intros H. apply Forall_cons in H as [H _].
  unfold room_ok in H. simpl in H. lia.
Qed.

(** The room "Demo" for two, from its creation: Alice and Bob get in,
    Carol is refused. *)
Example demo_scenario :
  let created := (Api.create_room init (RoomCreate.mk "Demo" (Some 2%Z))
                    "r-demo" 1000).1 in
  let filled := run_joins created demo_calls in
  db_rooms filled = [demo_room]
  ∧ db_participants filled = db_participants demo_full
  ∧ (Api.join_room filled "r-demo" (ParticipantCreate.mk "Carol")
       "p-carol" 1003).2 = Raise (mkHTTPException 400 "Room is full").
Proof. by split_and!. Qed.

(** C7. A join request for a room id that no room document carries is
    refused with 404 "Room not found", whatever name the participant
    gives: it is neither a success nor 400 "Room is full", and the state
    is left as it was. *)
Theorem join_unknown_room_is_not_found (st : State) (room_id : string)
    (data : ParticipantCreate.t) (uuid : string) (now : Z) :
  (∀ r, r ∈ db_rooms st → Room.id r ≠ room_id) →
  Api.join_room st room_id data uuid now =
    (st, Raise (mkHTTPException 404 "Room not found"))
  ∧ (∀ p, (Api.join_room st room_id data uuid now).2 ≠ Return p)
  ∧ (Api.join_room st room_id data uuid now).2 ≠
      Raise (mkHTTPException 400 "Room is full").
Proof.
  intros Habsent. apply find_one_room_None in Habsent.
  unfold Api.join_room. rewrite Habsent. simpl. by split_and!.
Qed.

Lemma join_unknown_room_is_not_found_witness :
  Api.join_room demo_full "nonexistent-room-id"
    (ParticipantCreate.mk "Test Participant") "p-test" 1005 =
    (demo_full, Raise (mkHTTPException 404 "Room not found"))
  ∧ (∀ p, (Api.join_room demo_full "nonexistent-room-id"
             (ParticipantCreate.mk "Test Participant") "p-test" 1005).2
          ≠ Return p)
  ∧ (Api.join_room demo_full "nonexistent-room-id"
       (ParticipantCreate.mk "Test Participant") "p-test" 1005).2 ≠
      Raise (mkHTTPException 400 "Room is full").
Proof.
  apply (join_unknown_room_is_not_found demo_full "nonexistent-room-id").
  intros r Hr. apply list_elem_of_singleton in Hr as ->. simpl.
  intros H. discriminate H.
Defined.

(** ** The caption pipeline *)

Section Pipeline.

Variable predict_sign : string → option string * float.

Lemma predict_rejects (st : State) (request : PredictionRequest.t)
    (uuid : string) (now : Z) (label : option string) (conf : float) :
  predict_sign (PredictionRequest.image_data request) = (label, conf) →
  truthy label && (threshold <? conf)%float = false →
  Api.predict_sign_language predict_sign st request uuid now =
  (st, Return (mkPrediction None conf)).
Proof.
  intros Hcls Hgate. unfold Api.predict_sign_language, Api.predict_try.
  by rewrite Hcls, Hgate.
Qed.

Lemma predict_accepts (st : State) (request : PredictionRequest.t)
    (uuid : string) (now : Z) (text : string) (conf : float)
    (participant : Participant.t) :
  predict_sign (PredictionRequest.image_data request) = (Some text, conf) →
  text ≠ "" →
  (threshold <? conf)%float = true →
  find_one_participant (PredictionRequest.participant_id request)
    (db_participants st) = Some participant →
  Api.predict_sign_language predict_sign st request uuid now =
  (emit
     (set_db_captions st
        (db_captions st ++
           [caption_of request uuid now text conf participant]))
     (new_caption (caption_of request uuid now text conf participant))
     (Some (PredictionRequest.room_id request)) None,
   if bool_decide (sio_rooms st ≠ ∅)
   then Raise (mkHTTPException 500 "Prediction failed")
   else Return (mkPrediction (Some text) conf)).
Proof.
  intros Hcls Htext Hconf Hfind.
  unfold Api.predict_sign_language, Api.predict_try.
  rewrite Hcls, (truthy_Some text Htext), Hconf. simpl.
  rewrite Hfind. unfold emit_raises. simpl.
  by destruct (bool_decide (sio_rooms st ≠ ∅)).
Qed.

Lemma predict_unknown_participant (st : State)
    (request : PredictionRequest.t) (uuid : string) (now : Z)
    (text : string) (conf : float) :
  predict_sign (PredictionRequest.image_data request) = (Some text, conf) →
  text ≠ "" →
  (threshold <? conf)%float = true →
  find_one_participant (PredictionRequest.participant_id request)
    (db_participants st) = None →
  Api.predict_sign_language predict_sign st request uuid now =
  (st, Raise (mkHTTPException 500 "Prediction failed")).
Proof.
  intros Hcls Htext Hconf Hfind.
  unfold Api.predict_sign_language, Api.predict_try.
  rewrite Hcls, (truthy_Some text Htext), Hconf. simpl.
  by rewrite Hfind.
Qed.

End Pipeline.




(** C3.  With a label, a confidence of 0.9 and a participant id that is
    not in the participant store, the 404 "Participant not found" raised
    inside the [try] block is caught by its [except Exception] clause:
    the caller gets 500 "Prediction failed".  No caption is stored or
    emitted. *)
Theorem unknown_participant_yields_prediction_failed :
  Api.predict_sign_language (λ _, (Some "HELLO", conf_09)) demo_live
    (PredictionRequest.mk "data:image/jpeg;base64,/9j/4AAQ" "r-demo"
       "p-nobody")
    "c-1" 2000 =
  (demo_live, Raise (mkHTTPException 500 "Prediction failed")).
Proof. reflexivity. Qed.

(** C10.  Once the gate is passed and the participant is found, the
    caption that is stored carries the room id of the request, and so
    does the call of [emit].  The room collection is never read and the
    participant's own [room_id] is never compared: the statement has no
    premise on either.  The caption is not broadcast: nobody is sent the
    [new_caption]; as soon as a client is connected the call raises and
    the caller, whose caption is stored, is answered 500 "Prediction
    failed". *)
Theorem caption_room_id_is_taken_from_request
    (predict_sign : string → option string * float)
    (st : State) (request : PredictionRequest.t) (uuid : string) (now : Z)
    (text : string) (conf : float) (participant : Participant.t) :
  predict_sign (PredictionRequest.image_data request) = (Some text, conf) →
  text ≠ "" →
  (threshold <? conf)%float = true →
  find_one_participant (PredictionRequest.participant_id request)
    (db_participants st) = Some participant →
  let result :=
    Api.predict_sign_language predict_sign st request uuid now in
  let caption :=
    Caption.mk uuid text (Participant.name participant)
      (PredictionRequest.room_id request) now conf in
  db_captions result.1 = db_captions st ++ [caption]
  ∧ outbox result.1 =
      outbox st ++
        [mkEmitted (new_caption caption)
           (Some (PredictionRequest.room_id request)) None []]
  ∧ db_rooms result.1 = db_rooms st
  ∧ db_participants result.1 = db_participants st
  ∧ sio_rooms result.1 = sio_rooms st
  ∧ (sio_rooms st ≠ ∅ →
     result.2 = Raise (mkHTTPException 500 "Prediction failed"))
  ∧ (sio_rooms st = ∅ →
     result.2 = Return (mkPrediction (Some text) conf)).
Proof.
  intros Hcls Htext Hconf Hfind result caption. subst result.
  rewrite (predict_accepts predict_sign st request uuid now text conf
             participant Hcls Htext Hconf Hfind).
  simpl. split_and!; try done.
  - intros Hsome. by rewrite bool_decide_eq_true_2.
  - intros Hnone. rewrite bool_decide_eq_false_2; [done|].
    intros H. by apply H.
Qed.

Lemma caption_room_id_is_taken_from_request_witness :
  find_one_room "r-elsewhere" (db_rooms demo_live) = None
  ∧ Participant.room_id alice ≠ "r-elsewhere"
  ∧ connected demo_live "sid-alice"
  ∧ db_captions
      (Api.predict_sign_language (λ _, (Some "HELLO", conf_09))
         demo_live frame_for_elsewhere "c-1" 2000).1 =
    [Caption.mk "c-1" "HELLO" "Alice" "r-elsewhere" 2000 conf_09]
  ∧ outbox
      (Api.predict_sign_language (λ _, (Some "HELLO", conf_09))
         demo_live frame_for_elsewhere "c-1" 2000).1 =
    [mkEmitted
       (new_caption
          (Caption.mk "c-1" "HELLO" "Alice" "r-elsewhere" 2000 conf_09))
       (Some "r-elsewhere") None []]
  ∧ (Api.predict_sign_language (λ _, (Some "HELLO", conf_09))
       demo_live frame_for_elsewhere "c-1" 2000).2 =
    Raise (mkHTTPException 500 "Prediction failed").
Proof.
  split; [reflexivity|]. split; [intros H; discriminate H|].
  split; [by vm_compute; left|].
  pose proof
    (caption_room_id_is_taken_from_request
       (λ _, (Some "HELLO", conf_09)) demo_live frame_for_elsewhere
       "c-1" 2000%Z "HELLO" conf_09 alice eq_refl) as H.
  destruct H as (Hcaptions & Houtbox & _ & _ & _ & Hraise & _).
  - intros H. discriminate H.
  - reflexivity.
  - reflexivity.
  - split_and!; [exact Hcaptions|exact Houtbox|].
    apply Hraise. intros H.
    apply (f_equal (λ m, m !! (None : option string))) in H.
    vm_compute in H. discriminate H.
Defined.
(** ** Socket.IO rooms: entering, leaving, disconnecting *)

Lemma targets_skip (rooms : gmap (option string) (list string))
    (room : option string) (sid : string) :
  Sio.targets rooms room (Some sid) =
  Sio.remove_member sid (Sio.members rooms room).
Proof.
  unfold Sio.targets, Sio.remove_member. apply list_filter_iff.
  intros x. split; intros H; congruence.
Qed.

Lemma remove_member_idempotent (sid : string) (l : list string) :
  Sio.remove_member sid (Sio.remove_member sid l) = Sio.remove_member sid l.
Proof.
  apply remove_member_absent. rewrite elem_of_remove_member. tauto.
Qed.

Lemma remove_add_member (sid : string) (l : list string) :
  Sio.remove_member sid (Sio.add_member sid l) = Sio.remove_member sid l.
Proof.
  unfold Sio.add_member. case_decide; [done|].
  unfold Sio.remove_member. rewrite filter_app.
  rewrite filter_cons_False by (intros H'; by apply H').
  by rewrite filter_nil, app_nil_r.
Qed.

Lemma event_room_id (data : gmap string string) :
  truthy (data !! "room_id") = true →
  ∃ r, data !! "room_id" = Some r ∧ r ≠ "".
Proof. apply truthy_true. Qed.

Lemma event_leave_room_eq (st : State) (sid r : string)
    (data : gmap string string) :
  data !! "room_id" = Some r → r ≠ "" →
  Events.leave_room st sid data =
  emit (set_sio_rooms st (Sio.leave_room (sio_rooms st) sid (Some r)))
    (user_left sid) (Some r) (Some sid).
Proof.
  intros Hroom Hr. unfold Events.leave_room.
  by rewrite Hroom, (truthy_Some r Hr).
Qed.

Lemma event_join_room_eq (st : State) (sid r : string)
    (data : gmap string string) :
  data !! "room_id" = Some r → r ≠ "" →
  Events.join_room st sid data =
  emit (set_sio_rooms st (Sio.enter_room (sio_rooms st) sid (Some r)))
    (user_joined sid (data !! "participant_id")) (Some r) (Some sid).
Proof.
  intros Hroom Hr. unfold Events.join_room.
  by rewrite Hroom, (truthy_Some r Hr).
Qed.

(** C4, amended.  The [leave_room] event takes the connection out of the
    Socket.IO room it names and announces [user_left] to the connections
    that remain; it touches neither the room documents nor the
    participant store.  Sent a second time it changes neither the stores
    nor any membership and fails no more than the first, though it
    announces [user_left] once more. *)
Theorem leave_room_leaves_only_the_socket_room (st : State)
    (sid r : string) (data : gmap string string) :
  data !! "room_id" = Some r → r ≠ "" →
  let st1 := Events.leave_room st sid data in
  let st2 := Events.leave_room st1 sid data in
  let others := Sio.remove_member sid (Sio.members (sio_rooms st) (Some r)) in
  db_rooms st1 = db_rooms st
  ∧ db_participants st1 = db_participants st
  ∧ db_captions st1 = db_captions st
  ∧ Sio.members (sio_rooms st1) (Some r) = others
  ∧ (∀ room, room ≠ Some r →
       Sio.members (sio_rooms st1) room = Sio.members (sio_rooms st) room)
  ∧ outbox st1 =
      outbox st ++ [mkEmitted (user_left sid) (Some r) (Some sid) others]
  ∧ db_rooms st2 = db_rooms st1
  ∧ db_participants st2 = db_participants st1
  ∧ db_captions st2 = db_captions st1
  ∧ sio_rooms st2 = sio_rooms st1
  ∧ outbox st2 =
      outbox st1 ++ [mkEmitted (user_left sid) (Some r) (Some sid) others].
Proof.
  intros Hroom Hr st1 st2 others. subst st2 st1.
  rewrite !(event_leave_room_eq _ sid r data Hroom Hr). simpl.
  rewrite leave_room_idempotent, !targets_skip, !members_leave_room.
  rewrite decide_True by done. rewrite remove_member_idempotent.
  split_and!; try done.
  intros room Hne. rewrite members_leave_room. by rewrite decide_False.
Qed.

Lemma leave_room_leaves_only_the_socket_room_witness :
  db_rooms (Events.leave_room demo_pair "sid-alice" leave_demo) =
    [demo_room]
  ∧ Sio.members
      (sio_rooms (Events.leave_room demo_pair "sid-alice" leave_demo))
      (Some "r-demo") = ["sid-bob"]
  ∧ sio_rooms
      (Events.leave_room
         (Events.leave_room demo_pair "sid-alice" leave_demo)
         "sid-alice" leave_demo) =
    sio_rooms (Events.leave_room demo_pair "sid-alice" leave_demo).
Proof.
  pose proof
    (leave_room_leaves_only_the_socket_room demo_pair "sid-alice" "r-demo"
       leave_demo eq_refl) as H.
  destruct H as (Hrooms & _ & _ & Hmembers & _ & _ & _ & _ & _ & Hsame & _).
  - intros H. discriminate H.
  - split; [exact Hrooms|]. split; [exact Hmembers | exact Hsame].
Defined.

(** C4 as stated fails: after Alice's connection has left the room, her
    participant id is still in the room document and her record is still
    in the participant store. *)
Lemma leave_room_keeps_participant_records :
  Room.participants <$>
    find_one_room "r-demo"
      (db_rooms (Events.leave_room demo_pair "sid-alice" leave_demo)) =
    Some ["p-alice"; "p-bob"]
  ∧ find_one_participant "p-alice"
      (db_participants (Events.leave_room demo_pair "sid-alice" leave_demo))
    = Some alice.
Proof. split; reflexivity. Qed.

(** C5, amended.  When a connection goes away the [disconnect] handler
    emits nothing, so no [user_left] reaches anybody; the room manager
    takes the connection out of every room, so that it is a member of
    none afterwards, and leaves the other members of every room in
    place. *)
Theorem disconnect_is_silent_and_clears_membership (st : State)
    (sid : string) :
  Events.disconnect st sid = st
  ∧ outbox (Transport.on_disconnect st sid) = outbox st
  ∧ db_rooms (Transport.on_disconnect st sid) = db_rooms st
  ∧ db_participants (Transport.on_disconnect st sid) = db_participants st
  ∧ (∀ room,
       sid ∉ Sio.members (sio_rooms (Transport.on_disconnect st sid)) room)
  ∧ (∀ room x, x ≠ sid →
       x ∈ Sio.members (sio_rooms (Transport.on_disconnect st sid)) room ↔
       x ∈ Sio.members (sio_rooms st) room).
Proof.
  split_and!; try done.
  - intros room. simpl. unfold Events.disconnect.
    rewrite members_disconnect, elem_of_remove_member. tauto.
  - intros room x Hx. simpl. unfold Events.disconnect.
    rewrite members_disconnect, elem_of_remove_member. tauto.
Qed.

(** C5 as stated fails: Alice and Bob are both in the room; after
    Alice's connection is gone Bob has been sent no [user_left] at all,
    not one. *)
Lemma disconnect_sends_no_user_left :
  "sid-alice" ∈ Sio.members (sio_rooms demo_pair) (Some "r-demo")
  ∧ "sid-bob" ∈ Sio.members (sio_rooms demo_pair) (Some "r-demo")
  ∧ delivered is_user_left "sid-bob"
      (outbox (Transport.on_disconnect demo_pair "sid-alice")) =
    delivered is_user_left "sid-bob" (outbox demo_pair)
  ∧ delivered is_user_left "sid-bob"
      (outbox (Transport.on_disconnect demo_pair "sid-alice")) ≠ 1.
Proof.
  split_and!.
  - vm_compute. set_solver.
  - vm_compute. set_solver.
  - reflexivity.
  - vm_compute. lia.
Qed.

(** C8, amended.  A [join_room] event puts the connection into the room
    it names and takes it out of none: every room the connection was in
    before, it is still in afterwards, so a connection that joins a
    second room is a member of both. *)
Theorem join_room_keeps_earlier_rooms (st : State) (sid r : string)
    (data : gmap string string) :
  data !! "room_id" = Some r → r ≠ "" →
  sid ∈ Sio.members (sio_rooms (Events.join_room st sid data)) (Some r)
  ∧ (∀ room,
       sid ∈ Sio.members (sio_rooms st) room →
       sid ∈ Sio.members (sio_rooms (Events.join_room st sid data)) room)
  ∧ (∀ room, room ≠ Some r →
       Sio.members (sio_rooms (Events.join_room st sid data)) room =
       Sio.members (sio_rooms st) room).
Proof.
  intros Hroom Hr. rewrite (event_join_room_eq st sid r data Hroom Hr).
  simpl. split_and!.
  - rewrite members_enter_room, decide_True by done.
    apply elem_of_add_member. by left.
  - intros room Hin. rewrite members_enter_room. case_decide; subst.
    + apply elem_of_add_member. by right.
    + done.
  - intros room Hne. rewrite members_enter_room. by rewrite decide_False.
Qed.

Lemma join_room_keeps_earlier_rooms_witness :
  "sid-alice" ∈ Sio.members (sio_rooms demo_two_rooms) (Some "r-other")
  ∧ (∀ room,
       "sid-alice" ∈
         Sio.members
           (sio_rooms
              (Events.join_room (Transport.on_connect init "sid-alice")
                 "sid-alice" {[ "room_id" := "r-demo" ]})) room →
       "sid-alice" ∈ Sio.members (sio_rooms demo_two_rooms) room).
Proof.
  pose proof
    (join_room_keeps_earlier_rooms
       (Events.join_room (Transport.on_connect init "sid-alice")
          "sid-alice" {[ "room_id" := "r-demo" ]})
       "sid-alice" "r-other" {[ "room_id" := "r-other" ]} eq_refl) as H.
  destruct H as (Hnew & Hold & _).
  - intros H. discriminate H.
  - split; [exact Hnew | exact Hold].
Defined.

(** C8 as stated fails: after joining a second room the connection is in
    both rooms at once. *)
Lemma connection_in_two_rooms_at_once :
  "sid-alice" ∈ Sio.members (sio_rooms demo_two_rooms) (Some "r-demo")
  ∧ "sid-alice" ∈ Sio.members (sio_rooms demo_two_rooms) (Some "r-other")
  ∧ Some "r-demo" ≠ Some "r-other".
Proof.
  split_and!.
  - vm_compute. set_solver.
  - vm_compute. set_solver.
  - intros H. discriminate H.
Qed.

(** ** Announcing a join *)

Lemma api_join_room_lets_in (st : State) (room_id : string)
    (data : ParticipantCreate.t) (uuid : string) (now : Z)
    (room : Room.t) :
  find_one_room room_id (db_rooms st) = Some room →
  (Z.of_nat (length (Room.participants room))
     < Room.max_participants room)%Z →
  let participant :=
    Participant.mk uuid (ParticipantCreate.name data) room_id now in
  Api.join_room st room_id data uuid now =
  (emit
     (set_db_participants
        (set_db_rooms st (update_one_push room_id uuid (db_rooms st)))
        (db_participants st ++ [participant]))
     (participant_joined participant room_id) (Some room_id) None,
   if bool_decide (sio_rooms st ≠ ∅)
   then Raise internal_server_error
   else Return participant).
Proof.
  intros Hfind Hfree. unfold Api.join_room. rewrite Hfind.
  rewrite (proj2 (Z.leb_gt _ _) Hfree). unfold emit_raises. simpl.
  by destruct (bool_decide (sio_rooms st ≠ ∅)).
Qed.

Lemma no_rooms_no_client (st : State) (sid : string) :
  connected st sid → sio_rooms st ≠ ∅.
Proof.
  unfold connected, Sio.members. intros Hsid Hnone.
  rewrite Hnone, lookup_empty in Hsid. by apply elem_of_nil in Hsid.
Qed.

(** C9.  The [user_joined] announcement of a [join_room] event goes to
    every connection of the room except the joining one, which is in the
    room and is not sent it.  The [participant_joined] announcement of a
    REST join that passed the two checks goes to nobody: the participant
    is pushed to the room and stored, [emit] is called for the room, and
    nobody is sent the packet; as soon as a client is connected the
    caller is answered 500, and the participant is returned only while
    no client is connected. *)
Theorem join_announcements (st : State) :
  (∀ (sid r : string) (data : gmap string string),
     data !! "room_id" = Some r → r ≠ "" →
     let st' := Events.join_room st sid data in
     outbox st' =
       outbox st ++
         [mkEmitted (user_joined sid (data !! "participant_id"))
            (Some r) (Some sid)
            (filter (λ x, x ≠ sid) (Sio.members (sio_rooms st') (Some r)))]
     ∧ sid ∈ Sio.members (sio_rooms st') (Some r))
  ∧ (∀ (room_id : string) (data : ParticipantCreate.t) (uuid : string)
       (now : Z) (room : Room.t),
       find_one_room room_id (db_rooms st) = Some room →
       (Z.of_nat (length (Room.participants room))
          < Room.max_participants room)%Z →
       let result := Api.join_room st room_id data uuid now in
       let participant :=
         Participant.mk uuid (ParticipantCreate.name data) room_id now in
       db_rooms result.1 = update_one_push room_id uuid (db_rooms st)
       ∧ db_participants result.1 = db_participants st ++ [participant]
       ∧ outbox result.1 =
           outbox st ++
             [mkEmitted (participant_joined participant room_id)
                (Some room_id) None []]
       ∧ (sio_rooms st ≠ ∅ → result.2 = Raise internal_server_error)
       ∧ (sio_rooms st = ∅ → result.2 = Return participant)).
Proof.
  split.
  - intros sid r data Hroom Hr st'. subst st'.
    rewrite (event_join_room_eq st sid r data Hroom Hr). simpl.
    rewrite targets_skip. split; [reflexivity|].
    rewrite members_enter_room, decide_True by done.
    apply elem_of_add_member. by left.
  - intros room_id data uuid now room Hfind Hfree result participant.
    subst result.
    rewrite (api_join_room_lets_in st room_id data uuid now room
               Hfind Hfree).
    simpl. split_and!; try done.
    + intros Hsome. by rewrite bool_decide_eq_true_2.
    + intros Hnone. rewrite bool_decide_eq_false_2; [done|].
      intros H. by apply H.
Qed.

Lemma join_announcements_witness :
  connected demo_carol_dave "sid-dave"
  ∧ outbox (Events.join_room demo_carol_dave "sid-dave" join_dave) =
      outbox demo_carol_dave ++
        [mkEmitted (user_joined "sid-dave" (Some "p-dave"))
           (Some "r-six") (Some "sid-dave") ["sid-carol"]]
  ∧ "sid-carol" ∈ Sio.members (sio_rooms demo_carol) (Some "r-six")
  ∧ db_participants
      (Api.join_room demo_carol "r-six" (ParticipantCreate.mk "Erin")
         "p-erin" 1003).1 =
    [Participant.mk "p-erin" "Erin" "r-six" 1003]
  ∧ outbox
      (Api.join_room demo_carol "r-six" (ParticipantCreate.mk "Erin")
         "p-erin" 1003).1 =
    outbox demo_carol ++
      [mkEmitted
         (participant_joined
            (Participant.mk "p-erin" "Erin" "r-six" 1003) "r-six")
         (Some "r-six") None []]
  ∧ (Api.join_room demo_carol "r-six" (ParticipantCreate.mk "Erin")
       "p-erin" 1003).2 = Raise internal_server_error.
Proof.
  split; [vm_compute; set_solver|].
  split.
  - exact (proj1 (proj1 (join_announcements demo_carol_dave) "sid-dave"
                    "r-six" join_dave eq_refl
                    (λ H : "r-six" = "", eq_ind "r-six"
                       (λ s, match s with
                             | EmptyString => False
                             | String _ _ => True
                             end) I "" H))).
  - split; [vm_compute; set_solver|].
    pose proof
      (proj2 (join_announcements demo_carol) "r-six"
         (ParticipantCreate.mk "Erin") "p-erin" 1003%Z
         (Room.mk "r-six" "Six" 1000 [] 6) eq_refl) as H.
    destruct H as (_ & Hrecords & Houtbox & Hraise & _).
    + simpl. lia.
    + split_and!; [exact Hrecords|exact Houtbox|].
      apply Hraise. apply (no_rooms_no_client demo_carol "sid-carol").
      vm_compute. set_solver.
Defined.
(** * Further properties of the server *)

(** ** Rooms: creating, reading, filling *)

Lemma find_one_room_app (room_id : string) (coll1 coll2 : list Room.t) :
  find_one_room room_id (coll1 ++ coll2) =
  match find_one_room room_id coll1 with
  | Some room => Some room
  | None => find_one_room room_id coll2
  end.
Proof.
  induction coll1 as [|r coll1 IH]; simpl; [done|]. by case_decide.
Qed.

Lemma find_one_room_push (room_id room_id' pid : string)
    (coll : list Room.t) :
  find_one_room room_id' (update_one_push room_id pid coll) =
  if decide (room_id' = room_id)
  then (λ r, push_participant r pid) <$> find_one_room room_id coll
  else find_one_room room_id' coll.
Proof.
  induction coll as [|r coll IH]; simpl; [by case_decide|].
  destruct (decide (Room.id r = room_id)) as [Hr|Hr]; simpl.
  - case_decide as Heq; subst.
    + by rewrite !decide_True.
    + by destruct (decide (Room.id r = room_id')); [congruence|].
  - rewrite IH. case_decide as Heq; subst.
    + by rewrite decide_False.
    + by case_decide.
Qed.

Lemma find_one_participant_app (pid : string)
    (coll1 coll2 : list Participant.t) :
  find_one_participant pid (coll1 ++ coll2) =
  match find_one_participant pid coll1 with
  | Some p => Some p
  | None => find_one_participant pid coll2
  end.
Proof.
  induction coll1 as [|p coll1 IH]; simpl; [done|]. by case_decide.
Qed.

Lemma find_one_participant_None (pid : string)
    (coll : list Participant.t) :
  find_one_participant pid coll = None ↔
  ∀ p, p ∈ coll → Participant.id p ≠ pid.
Proof.
  induction coll as [|q coll IH]; simpl.
  - split; [|done]. intros _ p Hp. by apply elem_of_nil in Hp.
  - case_decide as Hid.
    + split; [done|]. intros H. exfalso. apply (H q); [left|done].
    + rewrite IH. split.
      * intros H p Hp. apply elem_of_cons in Hp as [->|Hp]; auto.
      * intros H p Hp. apply H. by right.
Qed.

(** X1.  A room that was created can be read back.  When the capacity
    sent is an integer of at most eight bytes and no room document
    carries the generated id yet, [get_room] of that id answers the room
    [create_room] answered, which has the given name and capacity and no
    participant; the room documents that were there are all still read
    as before, and nothing but the room collection has changed.  When
    the capacity sent is [null] or does not fit in eight bytes, the
    answer is 500 and nothing is stored. *)
Theorem created_room_is_read_back (st : State) (room_data : RoomCreate.t)
    (uuid : string) (now : Z) :
  (∀ r, r ∈ db_rooms st → Room.id r ≠ uuid) →
  let created := Api.create_room st room_data uuid now in
  (∀ capacity : Z,
     RoomCreate.max_participants room_data = Some capacity →
     (-2 ^ 63 ≤ capacity < 2 ^ 63)%Z →
     created.2 =
       Return (Room.mk uuid (RoomCreate.name room_data) now [] capacity)
     ∧ (Api.get_room created.1 uuid).2 = created.2
     ∧ (∀ room_id, room_id ≠ uuid →
          (Api.get_room created.1 room_id).2 = (Api.get_room st room_id).2)
     ∧ db_participants created.1 = db_participants st
     ∧ db_captions created.1 = db_captions st
     ∧ sio_rooms created.1 = sio_rooms st
     ∧ outbox created.1 = outbox st)
  ∧ (RoomCreate.max_participants room_data = None
     ∨ (∃ capacity : Z,
          RoomCreate.max_participants room_data = Some capacity
          ∧ (capacity < -2 ^ 63 ∨ 2 ^ 63 ≤ capacity)%Z) →
     created = (st, Raise (mkHTTPException 500 "Internal Server Error"))).
Proof.
  intros Hfresh created. apply find_one_room_None in Hfresh.
  subst created. unfold Api.create_room, Api.get_room. split.
  - intros capacity -> Hfits.
    assert (fits_int64 capacity = true) as ->.
    { unfold fits_int64. apply andb_true_iff. split; apply Z.leb_le; lia. }
    simpl. split_and!; try done.
    + rewrite find_one_room_app, Hfresh. simpl. by rewrite decide_True.
    + intros room_id Hne. rewrite find_one_room_app.
      destruct (find_one_room room_id (db_rooms st)); [done|].
      simpl. by rewrite decide_False.
  - intros [->|(capacity & -> & Hout)]; [done|].
    assert (fits_int64 capacity = false) as ->; [|done].
    unfold fits_int64. apply andb_false_iff.
    destruct Hout; [left|right]; apply Z.leb_gt; lia.
Qed.

Lemma created_room_is_read_back_witness :
  (Api.get_room
     (Api.create_room demo_full (RoomCreate.mk "Standup" (Some 6%Z))
        "r-standup" 1010).1 "r-standup").2 =
  Return (Room.mk "r-standup" "Standup" 1010 [] 6)
  ∧ Api.create_room demo_full
      (RoomCreate.mk "Standup" (Some (2 ^ 63)%Z)) "r-standup" 1010 =
    (demo_full, Raise (mkHTTPException 500 "Internal Server Error")).
Proof.
  assert (Hfresh : ∀ r, r ∈ db_rooms demo_full → Room.id r ≠ "r-standup").
  { intros r Hr. apply list_elem_of_singleton in Hr as ->.
    intros H. discriminate H. }
  split.
  - pose proof
      (proj1 (created_room_is_read_back demo_full
                (RoomCreate.mk "Standup" (Some 6%Z)) "r-standup" 1010%Z
                Hfresh) 6%Z eq_refl) as H.
    destruct H as (Hanswer & Hread & _); [lia|].
    rewrite Hread. exact Hanswer.
  - apply (proj2 (created_room_is_read_back demo_full
                    (RoomCreate.mk "Standup" (Some (2 ^ 63)%Z))
                    "r-standup" 1010%Z Hfresh)).
    right. exists (2 ^ 63)%Z. split; [reflexivity|]. right. lia.
Defined.

(** X2.  A participant who was let in can be read back: when the room
    has a free place and no participant record carries the generated id
    yet, [get_room] shows after the join the room with that id pushed at
    the end of its list, the participant record is found under its id
    and names the room, and every other room and participant is read as
    before.  The join answers the new participant while no client is
    connected; with a client connected all of this is done and the
    answer is 500. *)
Theorem joined_participant_is_read_back (st : State) (room_id : string)
    (data : ParticipantCreate.t) (uuid : string) (now : Z)
    (room : Room.t) :
  find_one_room room_id (db_rooms st) = Some room →
  (Z.of_nat (length (Room.participants room))
     < Room.max_participants room)%Z →
  (∀ p, p ∈ db_participants st → Participant.id p ≠ uuid) →
  let joined := Api.join_room st room_id data uuid now in
  let participant :=
    Participant.mk uuid (ParticipantCreate.name data) room_id now in
  (sio_rooms st = ∅ → joined.2 = Return participant)
  ∧ (sio_rooms st ≠ ∅ →
     joined.2 = Raise (mkHTTPException 500 "Internal Server Error"))
  ∧ (Api.get_room joined.1 room_id).2 =
      Return (Room.mk (Room.id room) (Room.name room)
                (Room.created_at room)
                (Room.participants room ++ [uuid])
                (Room.max_participants room))
  ∧ find_one_participant uuid (db_participants joined.1) =
      Some participant
  ∧ (∀ room_id', room_id' ≠ room_id →
       (Api.get_room joined.1 room_id').2 = (Api.get_room st room_id').2)
  ∧ (∀ pid, pid ≠ uuid →
       find_one_participant pid (db_participants joined.1) =
       find_one_participant pid (db_participants st))
  ∧ db_captions joined.1 = db_captions st
  ∧ sio_rooms joined.1 = sio_rooms st.
Proof.
  intros Hfind Hfree Hfresh joined participant. subst joined participant.
  apply find_one_participant_None in Hfresh.
  rewrite (api_join_room_lets_in st room_id data uuid now room Hfind Hfree).
  unfold Api.get_room. simpl. split_and!; try done.
  - intros Hnone. rewrite bool_decide_eq_false_2; [done|].
    intros H. by apply H.
  - intros Hsome. by rewrite bool_decide_eq_true_2.
  - rewrite find_one_room_push, decide_True, Hfind by done. done.
  - rewrite find_one_participant_app, Hfresh. simpl.
    by rewrite decide_True.
  - intros room_id' Hne. rewrite find_one_room_push, decide_False by done.
    by destruct (find_one_room room_id' (db_rooms st)).
  - intros pid Hne. rewrite find_one_participant_app.
    destruct (find_one_participant pid (db_participants st)); [done|].
    simpl. by rewrite decide_False.
Qed.

Lemma joined_participant_is_read_back_witness :
  (Api.get_room
     (Api.join_room demo_carol "r-six" (ParticipantCreate.mk "Carol")
        "p-carol" 1003).1 "r-six").2 =
    Return (Room.mk "r-six" "Six" 1000 ["p-carol"] 6)
  ∧ find_one_participant "p-carol"
      (db_participants
         (Api.join_room demo_carol "r-six" (ParticipantCreate.mk "Carol")
            "p-carol" 1003).1) =
    Some (Participant.mk "p-carol" "Carol" "r-six" 1003)
  ∧ (Api.join_room demo_carol "r-six" (ParticipantCreate.mk "Carol")
       "p-carol" 1003).2 =
    Raise (mkHTTPException 500 "Internal Server Error").
Proof.
  pose proof
    (joined_participant_is_read_back demo_carol "r-six"
       (ParticipantCreate.mk "Carol") "p-carol" 1003%Z
       (Room.mk "r-six" "Six" 1000 [] 6) eq_refl) as H.
  destruct H as (_ & Hraise & Hroom & Hrecord & _).
  - simpl. lia.
  - intros p Hp. by apply elem_of_nil in Hp.
  - split_and!; [exact Hroom | exact Hrecord |].
    apply Hraise. apply (no_rooms_no_client demo_carol "sid-carol").
    vm_compute. set_solver.
Defined.

Lemma join_responses_full (calls : list JoinCall) (st : State)
    (room_id : string) (room : Room.t) :
  find_one_room room_id (db_rooms st) = Some room →
  (Room.max_participants room
     ≤ Z.of_nat (length (Room.participants room)))%Z →
  Forall (λ c, call_room_id c = room_id) calls →
  join_responses st calls =
    replicate (length calls) (Raise (mkHTTPException 400 "Room is full"))
  ∧ run_joins st calls = st.
Proof.
  intros Hfind Hfull. induction calls as [|c calls IH]; intros Hcalls.
  - done.
  - apply Forall_cons in Hcalls as [Hc Hcalls]. simpl. rewrite Hc.
    rewrite (join_room_full st room_id (call_data c) (call_uuid c)
               (call_now c) room Hfind Hfull).
    simpl. destruct (IH Hcalls) as [-> ->]. done.
Qed.

(** X3.  Join requests for one room, served one after the other, fill
    its free places in order and no more: with [free] places left
    ([max_participants] less the length of the participant list, none
    when that is negative), the first [free] requests are let in, all
    later ones are answered 400 "Room is full", and the room's list ends
    up extended by the ids of the first [free] requests.  Those let in
    are answered their participant while no client is connected, and
    500 otherwise. *)
Theorem joins_fill_the_free_places (calls : list JoinCall) (st : State)
    (room_id : string) (room : Room.t) :
  find_one_room room_id (db_rooms st) = Some room →
  Forall (λ c, call_room_id c = room_id) calls →
  let free :=
    Z.to_nat (Room.max_participants room
                - Z.of_nat (length (Room.participants room))) in
  let let_in (c : JoinCall) : Response Participant.t :=
    if bool_decide (sio_rooms st ≠ ∅)
    then Raise (mkHTTPException 500 "Internal Server Error")
    else Return (participant_of c) in
  join_responses st calls =
    (let_in <$> take free calls)
    ++ replicate (length calls - free)
         (Raise (mkHTTPException 400 "Room is full"))
  ∧ Room.participants <$>
      find_one_room room_id (db_rooms (run_joins st calls)) =
    Some (Room.participants room ++ (call_uuid <$> take free calls)).
Proof.
  revert st room. induction calls as [|c calls IH];
    intros st room Hfind Hcalls free let_in.
  - simpl. rewrite Hfind, take_nil. simpl. by rewrite app_nil_r.
  - destruct (Z.le_gt_cases (Room.max_participants room)
                (Z.of_nat (length (Room.participants room))))
      as [Hfull|Hfree].
    + destruct (join_responses_full (c :: calls) st room_id room
                  Hfind Hfull Hcalls) as [-> ->].
      replace free with 0 by (subst free; lia).
      rewrite take_0, Nat.sub_0_r, Hfind. simpl. by rewrite app_nil_r.
    + apply Forall_cons in Hcalls as [Hc Hcalls]. simpl. rewrite Hc.
      rewrite (api_join_room_lets_in st room_id (call_data c)
                 (call_uuid c) (call_now c) room Hfind Hfree).
      simpl.
      set (st' :=
             emit
               (set_db_participants
                  (set_db_rooms st
                     (update_one_push room_id (call_uuid c) (db_rooms st)))
                  (db_participants st ++
                     [Participant.mk (call_uuid c)
                        (ParticipantCreate.name (call_data c)) room_id
                        (call_now c)]))
               (participant_joined
                  (Participant.mk (call_uuid c)
                     (ParticipantCreate.name (call_data c)) room_id
                     (call_now c)) room_id)
               (Some room_id) None).
      assert (Hfind' : find_one_room room_id (db_rooms st') =
                       Some (push_participant room (call_uuid c))).
      { subst st'. simpl.
        by rewrite find_one_room_push, decide_True, Hfind by done. }
      destruct (IH st' (push_participant room (call_uuid c)) Hfind' Hcalls)
        as [Hresp Hlist].
      change (sio_rooms st') with (sio_rooms st) in Hresp.
      simpl in Hresp, Hlist. rewrite length_app in Hresp, Hlist.
      simpl in Hresp, Hlist.
      assert (Hfree' :
                Z.to_nat (Room.max_participants room
                          - Z.of_nat (length (Room.participants room) + 1))
                = pred free) by (subst free; lia).
      rewrite Hfree' in Hresp, Hlist.
      assert (Hpos : free = S (pred free)) by (subst free; lia).
      rewrite Hpos. simpl. rewrite Hresp, Hlist. split.
      * subst let_in. unfold participant_of, internal_server_error.
        rewrite Hc. by destruct (bool_decide (sio_rooms st ≠ ∅)).
      * by rewrite <- app_assoc.
Qed.

Lemma joins_fill_the_free_places_witness :
  join_responses
    (Api.create_room init (RoomCreate.mk "Demo" (Some 2%Z)) "r-demo" 1000).1
    (demo_calls
       ++ [mkJoinCall "r-demo" (ParticipantCreate.mk "Carol") "p-carol"
             1003]) =
  [Return (Participant.mk "p-alice" "Alice" "r-demo" 1001);
   Return (Participant.mk "p-bob" "Bob" "r-demo" 1002);
   Raise (mkHTTPException 400 "Room is full")].
Proof.
  pose proof
    (joins_fill_the_free_places
       (demo_calls
          ++ [mkJoinCall "r-demo" (ParticipantCreate.mk "Carol") "p-carol"
                1003])
       (Api.create_room init (RoomCreate.mk "Demo" (Some 2%Z)) "r-demo" 1000).1
       "r-demo" (Room.mk "r-demo" "Demo" 1000 [] 2) eq_refl) as H.
  destruct H as [Hresp _].
  - repeat constructor.
  - exact Hresp.
Defined.

(** ** The caption pipeline, end to end *)

(** What [predict_sign_language] can do, by the classifier's answer and
    the participant store. *)
Lemma predict_cases (predict_sign : string → option string * float)
    (st : State) (request : PredictionRequest.t) (uuid : string) (now : Z) :
  ∃ label conf,
    predict_sign (PredictionRequest.image_data request) = (label, conf)
    ∧ ((truthy label && (threshold <? conf)%float = false
        ∧ Api.predict_sign_language predict_sign st request uuid now =
          (st, Return (mkPrediction None conf)))
       ∨ (∃ text,
            label = Some text ∧ text ≠ ""
            ∧ (threshold <? conf)%float = true
            ∧ find_one_participant
                (PredictionRequest.participant_id request)
                (db_participants st) = None
            ∧ Api.predict_sign_language predict_sign st request uuid now =
              (st, Raise (mkHTTPException 500 "Prediction failed")))
       ∨ (∃ text participant,
            label = Some text ∧ text ≠ ""
            ∧ (threshold <? conf)%float = true
            ∧ find_one_participant
                (PredictionRequest.participant_id request)
                (db_participants st) = Some participant
            ∧ Api.predict_sign_language predict_sign st request uuid now =
              (emit
                 (set_db_captions st
                    (db_captions st ++
                       [caption_of request uuid now text conf participant]))
                 (new_caption
                    (caption_of request uuid now text conf participant))
                 (Some (PredictionRequest.room_id request)) None,
               if bool_decide (sio_rooms st ≠ ∅)
               then Raise (mkHTTPException 500 "Prediction failed")
               else Return (mkPrediction (Some text) conf)))).
Proof.
  destruct (predict_sign (PredictionRequest.image_data request))
    as [label conf] eqn:Hcls.
  exists label, conf. split; [done|].
  destruct (truthy label && (threshold <? conf)%float) eqn:Hgate.
  - apply andb_true_iff in Hgate as [Hlabel Hconf].
    apply truthy_true in Hlabel as (text & -> & Htext).
    destruct (find_one_participant
                (PredictionRequest.participant_id request)
                (db_participants st)) as [participant|] eqn:Hfind.
    + right. right. exists text, participant. split_and!; try done.
      by apply (predict_accepts predict_sign st request uuid now text
                  conf participant).
    + right. left. exists text. split_and!; try done.
      by apply (predict_unknown_participant predict_sign st request uuid
                  now text conf).
  - left. split; [done|]. by apply predict_rejects with label.
Qed.

(** X4.  The predict route fails in one way only: whatever it raises is
    500 "Prediction failed", and it raises only when the classifier's
    answer passes the gate: either the participant id is not in the
    store, and the state is the one before the request, or it is, a
    client is connected, and the caption has been stored.  The caller
    never sees 404 "Participant not found".  What the client gets is 200
    exactly when the confidence is a finite number and either the gate
    is not passed, or the participant is known and no client is
    connected; it is 500 in every other case. *)
Theorem predict_raises_only_prediction_failed
    (predict_sign : string → option string * float)
    (st : State) (request : PredictionRequest.t) (uuid : string) (now : Z)
    (label : option string) (conf : float) :
  predict_sign (PredictionRequest.image_data request) = (label, conf) →
  let result :=
    Api.predict_sign_language predict_sign st request uuid now in
  let gate := truthy label && (threshold <? conf)%float in
  let found :=
    find_one_participant (PredictionRequest.participant_id request)
      (db_participants st) in
  (∀ e : HTTPException,
     result.2 = Raise e →
     e = mkHTTPException 500 "Prediction failed"
     ∧ gate = true
     ∧ (found = None ∧ result.1 = st
        ∨ (∃ text participant,
             label = Some text ∧ found = Some participant
             ∧ sio_rooms st ≠ ∅
             ∧ db_captions result.1 =
                 db_captions st ++
                   [caption_of request uuid now text conf participant])))
  ∧ (status_code renders_prediction result.2 = 200%Z ↔
     finite conf = true
     ∧ (gate = false ∨ (is_Some found ∧ sio_rooms st = ∅)))
  ∧ (status_code renders_prediction result.2 ≠ 200%Z →
     status_code renders_prediction result.2 = 500%Z).
Proof.
  intros Hcls result gate found. subst result gate found.
  destruct (predict_cases predict_sign st request uuid now)
    as (label' & conf' & Hcls' & Hcases).
  rewrite Hcls in Hcls'. injection Hcls' as <- <-.
  destruct Hcases as [[Hgate Heq] | [Hunknown | Haccept]].
  - rewrite Heq, Hgate. simpl. unfold renders_prediction. simpl.
    split_and!.
    + intros e He. discriminate He.
    + destruct (finite conf); split; try done.
      * intros _. split; [done|by left].
      * by intros [? _].
    + by destruct (finite conf).
  - destruct Hunknown as (text & -> & Htext & Hconf & Hfind & Heq).
    rewrite Heq, Hfind, (truthy_Some text Htext), Hconf. simpl.
    split_and!.
    + intros e [= <-]. split_and!; try done. by left.
    + split; [done|]. intros [_ [H|[[p Hp] _]]]; done.
    + done.
  - destruct Haccept
      as (text & participant & -> & Htext & Hconf & Hfind & Heq).
    rewrite Heq, Hfind, (truthy_Some text Htext), Hconf. simpl.
    destruct (decide (sio_rooms st = ∅)) as [Hnone|Hsome].
    + rewrite bool_decide_eq_false_2 by (intros H; by apply H).
      simpl. unfold renders_prediction. simpl. split_and!.
      * intros e He. discriminate He.
      * destruct (finite conf); split; try done.
        -- intros _. split; [done|]. right. split; [by eexists|done].
        -- by intros [? _].
      * by destruct (finite conf).
    + rewrite bool_decide_eq_true_2 by done. simpl. split_and!.
      * intros e [= <-]. split_and!; try done. right.
        by exists text, participant.
      * split; [done|]. intros [_ [H|[_ H]]]; done.
      * done.
Qed.

Lemma predict_raises_only_prediction_failed_witness :
  status_code renders_prediction
    (Api.predict_sign_language (λ _, (None, nan)) demo_full
       frame_of_alice "c-1" 2000).2 = 500%Z
  ∧ status_code renders_prediction
      (Api.predict_sign_language (λ _, (Some "HELLO", conf_09)) demo_full
         frame_of_alice "c-1" 2000).2 = 200%Z
  ∧ status_code renders_prediction
      (Api.predict_sign_language (λ _, (Some "HELLO", conf_09)) demo_live
         frame_of_alice "c-1" 2000).2 = 500%Z.
Proof.
  split_and!.
  - apply (proj2 (proj2
      (predict_raises_only_prediction_failed (λ _, (None, nan)) demo_full
         frame_of_alice "c-1" 2000%Z None nan eq_refl))).
    intros H. discriminate H.
  - apply (proj1 (proj2
      (predict_raises_only_prediction_failed
         (λ _, (Some "HELLO", conf_09)) demo_full frame_of_alice "c-1"
         2000%Z (Some "HELLO") conf_09 eq_refl))).
    split; [reflexivity|]. right. split; [by eexists|reflexivity].
  - apply (proj2 (proj2
      (predict_raises_only_prediction_failed
         (λ _, (Some "HELLO", conf_09)) demo_live frame_of_alice "c-1"
         2000%Z (Some "HELLO") conf_09 eq_refl))).
    intros H. discriminate H.
Defined.

(** X5.  A participant who joined a room can caption under the name given
    at the join: after a join that passed the two checks with a fresh
    id, a predict request with that participant id whose classification
    passes the gate stores one caption, which bears the participant's
    name.  It answers the label and the confidence while no client is
    connected, and 500 "Prediction failed" otherwise. *)
Theorem joined_participant_can_caption
    (predict_sign : string → option string * float)
    (st : State) (room_id : string) (data : ParticipantCreate.t)
    (uuid : string) (now : Z) (room : Room.t)
    (request : PredictionRequest.t) (caption_uuid : string)
    (caption_now : Z) (text : string) (conf : float) :
  find_one_room room_id (db_rooms st) = Some room →
  (Z.of_nat (length (Room.participants room))
     < Room.max_participants room)%Z →
  (∀ p, p ∈ db_participants st → Participant.id p ≠ uuid) →
  PredictionRequest.participant_id request = uuid →
  predict_sign (PredictionRequest.image_data request) = (Some text, conf) →
  text ≠ "" →
  (threshold <? conf)%float = true →
  let joined := (Api.join_room st room_id data uuid now).1 in
  let predicted :=
    Api.predict_sign_language predict_sign joined request caption_uuid
      caption_now in
  db_captions predicted.1 =
    db_captions st ++
      [Caption.mk caption_uuid text (ParticipantCreate.name data)
         (PredictionRequest.room_id request) caption_now conf]
  ∧ (sio_rooms st = ∅ →
     predicted.2 = Return (mkPrediction (Some text) conf))
  ∧ (sio_rooms st ≠ ∅ →
     predicted.2 = Raise (mkHTTPException 500 "Prediction failed")).
Proof.
  intros Hfind Hfree Hfresh Hpid Hcls Htext Hconf joined predicted.
  apply find_one_participant_None in Hfresh.
  assert (Hrecord :
            find_one_participant (PredictionRequest.participant_id request)
              (db_participants joined) =
            Some (Participant.mk uuid (ParticipantCreate.name data)
                    room_id now)).
  { subst joined.
    rewrite (api_join_room_lets_in st room_id data uuid now room
               Hfind Hfree).
    simpl. rewrite Hpid, find_one_participant_app, Hfresh. simpl.
    by rewrite decide_True. }
  subst predicted.
  rewrite (predict_accepts predict_sign joined request caption_uuid
             caption_now text conf _ Hcls Htext Hconf Hrecord).
  assert (Hrooms : sio_rooms joined = sio_rooms st).
  { subst joined.
    by rewrite (api_join_room_lets_in st room_id data uuid now room
                  Hfind Hfree). }
  rewrite Hrooms. simpl. split_and!.
  - subst joined.
    by rewrite (api_join_room_lets_in st room_id data uuid now room
                  Hfind Hfree).
  - intros Hnone. rewrite bool_decide_eq_false_2; [done|].
    intros H. by apply H.
  - intros Hsome. by rewrite bool_decide_eq_true_2.
Qed.

Lemma joined_participant_can_caption_witness :
  db_captions
    (Api.predict_sign_language (λ _, (Some "HELLO", conf_09))
       (Api.join_room demo_carol "r-six" (ParticipantCreate.mk "Carol")
          "p-carol" 1003).1
       (PredictionRequest.mk "data:image/jpeg;base64,/9j/4AAQ" "r-six"
          "p-carol")
       "c-1" 2000).1 =
  [Caption.mk "c-1" "HELLO" "Carol" "r-six" 2000 conf_09].
Proof.
  pose proof
    (joined_participant_can_caption (λ _, (Some "HELLO", conf_09))
       demo_carol "r-six" (ParticipantCreate.mk "Carol") "p-carol" 1003%Z
       (Room.mk "r-six" "Six" 1000 [] 6)
       (PredictionRequest.mk "data:image/jpeg;base64,/9j/4AAQ" "r-six"
          "p-carol")
       "c-1" 2000%Z "HELLO" conf_09 eq_refl) as H.
  destruct H as [Hcaptions _].
  - simpl. lia.
  - intros p Hp. by apply elem_of_nil in Hp.
  - reflexivity.
  - reflexivity.
  - intros H. discriminate H.
  - reflexivity.
  - exact Hcaptions.
Defined.

(** ** The classifier front end *)

Lemma split_no_sep (sep : Ascii.ascii) (s : string) :
  sep ∉ list_ascii_of_string s → Ml.split sep s = [s].
Proof.
  induction s as [|c s IH]; simpl; intros Hsep; [done|].
  apply not_elem_of_cons in Hsep as [Hc Hs].
  rewrite decide_False by done. by rewrite IH.
Qed.

Lemma split_at_sep (sep : Ascii.ascii) (header rest : string) :
  sep ∉ list_ascii_of_string header →
  Ml.split sep (header +:+ String sep rest) = header :: Ml.split sep rest.
Proof.
  induction header as [|c header IH]; simpl; intros Hsep.
  - by rewrite decide_True.
  - apply not_elem_of_cons in Hsep as [Hc Hs].
    rewrite decide_False by done. by rewrite IH.
Qed.

(** X6.  A frame the classifier cannot use is not an error: when the
    model or the labels are not loaded, when the image data has no comma
    (a bare base64 text without the [data:...;base64,] header), or when
    decoding or inference raises, [predict_sign] answers no label with
    confidence 0.0, and the predict route then answers a null text with
    confidence 0.0 and leaves the state as it was, whoever the participant
    id names. *)
Theorem unusable_frame_is_a_null_prediction
    (model_loaded labels_loaded : bool)
    (infer : string → option (string * float)) (image_data : string) :
  model_loaded = false ∨ labels_loaded = false
  ∨ ","%char ∉ list_ascii_of_string image_data
  ∨ (∀ encoded, Ml.split "," image_data !! 1 = Some encoded →
                infer encoded = None) →
  Ml.predict_sign model_loaded labels_loaded infer image_data =
    (None, 0%float)
  ∧ ∀ (st : State) (request : PredictionRequest.t) (uuid : string)
      (now : Z),
      PredictionRequest.image_data request = image_data →
      Api.predict_sign_language
        (Ml.predict_sign model_loaded labels_loaded infer)
        st request uuid now =
      (st, Return (mkPrediction None 0%float)).
Proof.
  intros Hcase.
  assert (Hnone : Ml.predict_sign model_loaded labels_loaded infer
                    image_data = (None, 0%float)).
  { unfold Ml.predict_sign.
    destruct Hcase as [-> | [-> | [Hcomma | Hraise]]].
    - done.
    - by destruct model_loaded.
    - destruct (negb model_loaded || negb labels_loaded); [done|].
      by rewrite (split_no_sep _ _ Hcomma).
    - destruct (negb model_loaded || negb labels_loaded); [done|].
      destruct (Ml.split "," image_data !! 1) as [encoded|] eqn:Hpiece;
        [|done].
      by rewrite (Hraise encoded eq_refl). }
  split; [done|]. intros st request uuid now Himage.
  apply predict_rejects with None; [by rewrite Himage|done].
Qed.

Lemma unusable_frame_is_a_null_prediction_witness :
  Api.predict_sign_language
    (Ml.predict_sign true true (λ _, Some ("HELLO", conf_09)))
    demo_live
    (PredictionRequest.mk "/9j/4AAQSkZJRgABAQEAYABgAAD" "r-demo" "p-nobody")
    "c-1" 2000 =
  (demo_live, Return (mkPrediction None 0%float)).
Proof.
  apply (unusable_frame_is_a_null_prediction true true
           (λ _, Some ("HELLO", conf_09)) "/9j/4AAQSkZJRgABAQEAYABgAAD").
  - right. right. left. vm_compute. intros H.
    repeat (apply elem_of_cons in H as [H|H]; [discriminate H|]).
    by apply elem_of_nil in H.
  - reflexivity.
Defined.

(** X7.  Of a data URL the classifier sees what follows the header: for
    image data made of a header without comma, a comma, and a text
    without comma, [predict_sign] (model and labels loaded) runs the
    inference on that text alone, answers its label and confidence, and
    answers no label with confidence 0.0 when it raises.  What follows a
    second comma is ignored. *)
Theorem data_url_header_is_stripped
    (infer : string → option (string * float))
    (header encoded : string) :
  ","%char ∉ list_ascii_of_string header →
  ","%char ∉ list_ascii_of_string encoded →
  let answer :=
    match infer encoded with
    | None => (None, 0%float)
    | Some (predicted_label, confidence) =>
        (Some predicted_label, confidence)
    end in
  Ml.predict_sign true true infer (header +:+ String "," encoded) = answer
  ∧ ∀ rest,
      Ml.predict_sign true true infer
        (header +:+ String "," (encoded +:+ String "," rest)) = answer.
Proof.
  intros Hheader Hencoded answer. unfold Ml.predict_sign. simpl. split.
  - rewrite (split_at_sep _ header encoded Hheader).
    by rewrite (split_no_sep _ encoded Hencoded).
  - intros rest. rewrite (split_at_sep _ header _ Hheader).
    by rewrite (split_at_sep _ encoded rest Hencoded).
Qed.

Lemma data_url_header_is_stripped_witness :
  Ml.predict_sign true true
    (λ encoded, if decide (encoded = "QUJD") then Some ("A", conf_09)
                else None)
    "data:image/jpeg;base64,QUJD" =
  (Some "A", conf_09).
Proof.
  pose proof
    (data_url_header_is_stripped
       (λ encoded, if decide (encoded = "QUJD") then Some ("A", conf_09)
                   else None)
       "data:image/jpeg;base64" "QUJD") as H.
  destruct H as [Hfirst _].
  - vm_compute. intros H.
    repeat (apply elem_of_cons in H as [H|H]; [discriminate H|]).
    by apply elem_of_nil in H.
  - vm_compute. intros H.
    repeat (apply elem_of_cons in H as [H|H]; [discriminate H|]).
    by apply elem_of_nil in H.
  - exact Hfirst.
Defined.

Lemma fill_landmarks_spec (landmarks : list Landmark.t) (i : nat)
    (arr : list float) :
  length arr = 63 →
  length (Ml.fill_landmarks i landmarks arr) = 63
  ∧ (∀ k landmark,
       landmarks !! k = Some landmark → i + k < 21 →
       Ml.fill_landmarks i landmarks arr !! ((i + k) * 3) =
         Some (Landmark.x landmark)
       ∧ Ml.fill_landmarks i landmarks arr !! ((i + k) * 3 + 1) =
           Some (Landmark.y landmark)
       ∧ Ml.fill_landmarks i landmarks arr !! ((i + k) * 3 + 2) =
           Some (Landmark.z landmark))
  ∧ (∀ j, j < i * 3 ∨ (i + length landmarks) * 3 ≤ j →
          Ml.fill_landmarks i landmarks arr !! j = arr !! j).
Proof.
  revert i arr. induction landmarks as [|lm landmarks IH];
    intros i arr Hlen; simpl.
  - split_and!; done.
  - set (arr' :=
           if decide (i < 21) then
             <[i * 3 + 2 := Landmark.z lm]>
               (<[i * 3 + 1 := Landmark.y lm]>
                  (<[i * 3 := Landmark.x lm]> arr))
           else arr).
    assert (Hlen' : length arr' = 63).
    { subst arr'. case_decide; [|done]. by rewrite !length_insert. }
    assert (Hother : ∀ j, j < i * 3 ∨ (i + 1) * 3 ≤ j →
                          arr' !! j = arr !! j).
    { intros j Hj. subst arr'. case_decide; [|done].
      rewrite !list_lookup_insert_ne by lia. done. }
    destruct (IH (S i) arr' Hlen') as (Hl & Hfilled & Hkept).
    split_and!; [done| |].
    + intros [|k] landmark Hk Hik; simpl in Hk.
      * injection Hk as <-. rewrite Nat.add_0_r.
        rewrite !Hkept by lia. subst arr'.
        rewrite decide_True by lia.
        rewrite list_lookup_insert_ne by lia.
        rewrite list_lookup_insert_ne by lia.
        rewrite list_lookup_insert_eq by lia.
        rewrite list_lookup_insert_ne by lia.
        rewrite list_lookup_insert_eq by (rewrite length_insert; lia).
        rewrite list_lookup_insert_eq
          by (rewrite !length_insert; lia).
        done.
      * replace (i + S k) with (S i + k) by lia.
        apply Hfilled; [done|lia].
    + intros j Hj. rewrite Hkept by lia. apply Hother. lia.
Qed.

(** X8.  [extract_landmarks] always answers 63 numbers.  When a hand was
    found, landmark [i] of the first hand, for [i] below 21, is at
    positions [3i], [3i+1], [3i+2] (its x, y, z), landmarks from the 22nd
    on are ignored, and the positions after the last landmark written are
    0.0; when no hand was found or the detection raised, all 63 are
    0.0. *)
Theorem extract_landmarks_layout
    (detected : option (option (list (list Landmark.t)))) :
  length (Ml.extract_landmarks detected) = 63
  ∧ (∀ hand others i landmark,
       detected = Some (Some (hand :: others)) →
       hand !! i = Some landmark → i < 21 →
       Ml.extract_landmarks detected !! (i * 3) =
         Some (Landmark.x landmark)
       ∧ Ml.extract_landmarks detected !! (i * 3 + 1) =
           Some (Landmark.y landmark)
       ∧ Ml.extract_landmarks detected !! (i * 3 + 2) =
           Some (Landmark.z landmark))
  ∧ (∀ hand others j,
       detected = Some (Some (hand :: others)) →
       length hand * 3 ≤ j < 63 →
       Ml.extract_landmarks detected !! j = Some 0%float)
  ∧ (detected = None ∨ detected = Some None ∨ detected = Some (Some []) →
     Ml.extract_landmarks detected = replicate 63 0%float).
Proof.
  assert (Hzeros : length (Ml.zeros 63) = 63) by done.
  split_and!.
  - destruct detected as [[[|hand others]|]|]; simpl; try done.
    by apply (fill_landmarks_spec hand 0 (Ml.zeros 63)).
  - intros hand others i landmark -> Hi Hlt. simpl.
    destruct (fill_landmarks_spec hand 0 (Ml.zeros 63) Hzeros)
      as (_ & Hfilled & _).
    apply (Hfilled i landmark Hi). simpl. lia.
  - intros hand others j -> Hj. simpl.
    destruct (fill_landmarks_spec hand 0 (Ml.zeros 63) Hzeros)
      as (_ & _ & Hkept).
    rewrite Hkept by (simpl; lia).
    unfold Ml.zeros. apply lookup_replicate_2. lia.
  - intros [-> | [-> | ->]]; done.
Qed.

Lemma extract_landmarks_layout_witness :
  Ml.extract_landmarks
    (Some (Some [[Landmark.mk 0.5 0.25 0.125; Landmark.mk 0.75 0.5 0.25]]))
    !! 4 = Some 0.5%float.
Proof.
  pose proof
    (extract_landmarks_layout
       (Some (Some [[Landmark.mk 0.5 0.25 0.125;
                     Landmark.mk 0.75 0.5 0.25]]))) as H.
  destruct H as (_ & Hfilled & _).
  destruct (Hfilled
              [Landmark.mk 0.5 0.25 0.125; Landmark.mk 0.75 0.5 0.25]
              [] 1 (Landmark.mk 0.75 0.5 0.25) eq_refl eq_refl)
    as (_ & Hy & _).
  - lia.
  - exact Hy.
Defined.

(** ** Listing the captions of a room *)

Lemma newer_first_total : Total newer_first.
Proof. intros a b. unfold newer_first. lia. Qed.

Lemma newer_first_trans : Transitive newer_first.
Proof. intros a b c. unfold newer_first. lia. Qed.

Lemma elem_of_take_list {A} (n : nat) (l : list A) (x : A) :
  x ∈ take n l → x ∈ l.
Proof.
  intros Hx. rewrite <- (take_drop n l). apply elem_of_app. by left.
Qed.

(** The captions of a room, newest first. *)
Lemma room_captions_sorted (room_id : string) (coll : list Caption.t) :
  let mine := filter (λ c, Caption.room_id c = room_id) coll in
  merge_sort newer_first mine ≡ₚ mine
  ∧ StronglySorted newer_first (merge_sort newer_first mine).
Proof.
  intros mine. split; [apply merge_sort_Permutation|].
  pose proof newer_first_total. pose proof newer_first_trans.
  by apply StronglySorted_merge_sort.
Qed.

(** X9.  [get_room_captions] changes nothing and answers at most 50
    captions, each one a stored caption of the room asked for, the
    newest first; a caption of the room that is left out is no newer
    than any caption answered; and when the room has at most 50 captions
    the answer holds them all, each as often as it is stored. *)
Theorem room_captions_are_the_newest (st : State) (room_id : string) :
  (Api.get_room_captions st room_id).1 = st
  ∧ ∃ captions,
      (Api.get_room_captions st room_id).2 = Return captions
      ∧ length captions ≤ 50
      ∧ (∀ c, c ∈ captions →
              c ∈ db_captions st ∧ Caption.room_id c = room_id)
      ∧ StronglySorted newer_first captions
      ∧ (∀ c c',
           c ∈ db_captions st → Caption.room_id c = room_id →
           c ∉ captions → c' ∈ captions →
           (Caption.timestamp c ≤ Caption.timestamp c')%Z)
      ∧ (length (filter (λ c, Caption.room_id c = room_id)
                   (db_captions st)) ≤ 50 →
         captions ≡ₚ
           filter (λ c, Caption.room_id c = room_id) (db_captions st)).
Proof.
  split; [done|]. unfold Api.get_room_captions. simpl.
  destruct (room_captions_sorted room_id (db_captions st))
    as [Hperm Hsorted].
  set (mine := filter (λ c, Caption.room_id c = room_id) (db_captions st))
    in *.
  set (sorted := merge_sort newer_first mine) in *.
  exists (take 50 sorted). split_and!.
  - done.
  - rewrite length_take. lia.
  - intros c Hc. apply elem_of_take_list in Hc.
    rewrite Hperm in Hc. subst mine.
    apply list_elem_of_filter in Hc. tauto.
  - rewrite <- (take_drop 50 sorted) in Hsorted.
    by apply StronglySorted_app_1_l in Hsorted.
  - intros c c' Hc Hroom Hout Hin.
    assert (Hmine : c ∈ sorted).
    { rewrite Hperm. subst mine. by apply list_elem_of_filter. }
    rewrite <- (take_drop 50 sorted) in Hmine, Hsorted.
    apply elem_of_app in Hmine as [Hmine|Hmine]; [done|].
    apply (StronglySorted_app_1_elem_of _ _ _ c' c Hsorted Hin Hmine).
  - intros Hfew. rewrite take_ge; [done|].
    subst sorted. by rewrite Hperm.
Qed.

(** X10.  A caption that was just stored is listed: when the room named
    in the request has fewer than 50 captions, a predict request that
    passes the gate with a known participant is followed by a caption
    list of that room which holds the new caption. *)
Theorem stored_caption_is_listed
    (predict_sign : string → option string * float)
    (st : State) (request : PredictionRequest.t) (uuid : string) (now : Z)
    (text : string) (conf : float) (participant : Participant.t) :
  predict_sign (PredictionRequest.image_data request) = (Some text, conf) →
  text ≠ "" →
  (threshold <? conf)%float = true →
  find_one_participant (PredictionRequest.participant_id request)
    (db_participants st) = Some participant →
  length (filter (λ c, Caption.room_id c = PredictionRequest.room_id request)
            (db_captions st)) < 50 →
  ∃ captions,
    (Api.get_room_captions
       (Api.predict_sign_language predict_sign st request uuid now).1
       (PredictionRequest.room_id request)).2 = Return captions
    ∧ Caption.mk uuid text (Participant.name participant)
        (PredictionRequest.room_id request) now conf ∈ captions.
Proof.
  intros Hcls Htext Hconf Hfind Hfew.
  rewrite (predict_accepts predict_sign st request uuid now text conf
             participant Hcls Htext Hconf Hfind).
  unfold Api.get_room_captions. simpl. eexists. split; [reflexivity|].
  rewrite filter_app.
  rewrite (filter_cons_True _ (caption_of request uuid now text conf
                                 participant)) by done.
  rewrite filter_nil.
  rewrite take_ge.
  - rewrite merge_sort_Permutation. apply elem_of_app. right. by left.
  - rewrite merge_sort_Permutation, length_app. simpl. lia.
Qed.

Lemma stored_caption_is_listed_witness :
  ∃ captions,
    (Api.get_room_captions
       (Api.predict_sign_language (λ _, (Some "HELLO", conf_09))
          demo_live frame_of_alice "c-1" 2000).1 "r-demo").2 =
      Return captions
    ∧ Caption.mk "c-1" "HELLO" "Alice" "r-demo" 2000 conf_09 ∈ captions.
Proof.
  apply (stored_caption_is_listed (λ _, (Some "HELLO", conf_09))
           demo_live frame_of_alice "c-1" 2000%Z "HELLO" conf_09 alice).
  - reflexivity.
  - intros H. discriminate H.
  - reflexivity.
  - reflexivity.
  - simpl. lia.
Defined.

(** ** Any sequence of requests and events *)

(** What one request or event does to the stores and to the outbox: it
    leaves the stores alone, or it is a room creation, a join let in
    or an accepted prediction. *)
Lemma step_effect (predict_sign : string → option string * float)
    (st : State) (r : Request) :
  (db_rooms (step predict_sign st r) = db_rooms st
   ∧ db_participants (step predict_sign st r) = db_participants st
   ∧ db_captions (step predict_sign st r) = db_captions st
   ∧ ∃ extra,
       outbox (step predict_sign st r) = outbox st ++ extra
       ∧ Forall plain_packet extra)
  ∨ (∃ room : Room.t,
       Room.participants room = []
       ∧ db_rooms (step predict_sign st r) = db_rooms st ++ [room]
       ∧ db_participants (step predict_sign st r) = db_participants st
       ∧ db_captions (step predict_sign st r) = db_captions st
       ∧ outbox (step predict_sign st r) = outbox st)
  ∨ (∃ room_id data uuid now room to,
       find_one_room room_id (db_rooms st) = Some room
       ∧ (Z.of_nat (length (Room.participants room))
            < Room.max_participants room)%Z
       ∧ db_rooms (step predict_sign st r) =
           update_one_push room_id uuid (db_rooms st)
       ∧ db_participants (step predict_sign st r) =
           db_participants st ++
             [Participant.mk uuid (ParticipantCreate.name data) room_id now]
       ∧ db_captions (step predict_sign st r) = db_captions st
       ∧ outbox (step predict_sign st r) =
           outbox st ++
             [mkEmitted
                (participant_joined
                   (Participant.mk uuid (ParticipantCreate.name data)
                      room_id now) room_id)
                (Some room_id) None to])
  ∨ (∃ request uuid now text conf participant to,
       text ≠ "" ∧ (threshold <? conf)%float = true
       ∧ db_rooms (step predict_sign st r) = db_rooms st
       ∧ db_participants (step predict_sign st r) = db_participants st
       ∧ db_captions (step predict_sign st r) =
           db_captions st ++
             [caption_of request uuid now text conf participant]
       ∧ outbox (step predict_sign st r) =
           outbox st ++
             [mkEmitted
                (new_caption
                   (caption_of request uuid now text conf participant))
                (Some (PredictionRequest.room_id request)) None to]).
Proof.
  assert (Hquiet : ∀ st' : State,
            db_rooms st' = db_rooms st →
            db_participants st' = db_participants st →
            db_captions st' = db_captions st →
            outbox st' = outbox st →
            db_rooms st' = db_rooms st
            ∧ db_participants st' = db_participants st
            ∧ db_captions st' = db_captions st
            ∧ ∃ extra, outbox st' = outbox st ++ extra
                       ∧ Forall plain_packet extra).
  { intros st' ? ? ? Hout. split_and!; try done. exists [].
    by rewrite app_nil_r. }
  assert (Hone : ∀ (st' : State) (m : Emitted),
            db_rooms st' = db_rooms st →
            db_participants st' = db_participants st →
            db_captions st' = db_captions st →
            outbox st' = outbox st ++ [m] →
            plain_packet m →
            db_rooms st' = db_rooms st
            ∧ db_participants st' = db_participants st
            ∧ db_captions st' = db_captions st
            ∧ ∃ extra, outbox st' = outbox st ++ extra
                       ∧ Forall plain_packet extra).
  { intros st' m ? ? ? Hout Hm. split_and!; try done. exists [m].
    split; [done|]. by constructor. }
  destruct r as [room_data uuid now | room_id | room_id data uuid now
                | request uuid now | room_id | sid | sid | sid data
                | sid data | sid data | sid data | sid data | sid data now];
    simpl.
  - unfold Api.create_room.
    destruct (RoomCreate.max_participants room_data) as [capacity|];
      [|left; by apply Hquiet].
    destruct (fits_int64 capacity); [|left; by apply Hquiet].
    right. left. by eexists (Room.mk _ _ _ _ _).
  - left. apply Hquiet; unfold Api.get_room;
      by destruct (find_one_room room_id (db_rooms st)).
  - unfold Api.join_room.
    destruct (find_one_room room_id (db_rooms st)) as [room|] eqn:Hfind;
      [|left; by apply Hquiet].
    destruct (Z.leb_spec (Room.max_participants room)
                (Z.of_nat (length (Room.participants room))))
      as [Hfull|Hfree]; [left; by apply Hquiet|].
    right. right. left.
    eexists room_id, data, uuid, now, room, _.
    destruct (emit_raises _ _); simpl; by split_and!.
  - destruct (predict_cases predict_sign st request uuid now)
      as (label & conf & Hcls & [[_ Heq] | [Hunknown | Haccept]]).
    + left. rewrite Heq. by apply Hquiet.
    + destruct Hunknown as (text & _ & _ & _ & _ & Heq).
      left. rewrite Heq. by apply Hquiet.
    + destruct Haccept
        as (text & participant & _ & Htext & Hconf & _ & Heq).
      right. right. right. rewrite Heq.
      eexists request, uuid, now, text, conf, participant, _. simpl.
      by split_and!.
  - left. by apply Hquiet.
  - left. case_decide; by apply Hquiet.
  - left. case_decide; by apply Hquiet.
  - left. case_decide; [|by apply Hquiet]. unfold Events.join_room.
    destruct (truthy (data !! "room_id")); [|by apply Hquiet].
    by eapply Hone.
  - left. case_decide; [|by apply Hquiet]. unfold Events.leave_room.
    destruct (truthy (data !! "room_id")); [|by apply Hquiet].
    by eapply Hone.
  - left. case_decide; [|by apply Hquiet]. by eapply Hone.
  - left. case_decide; [|by apply Hquiet]. by eapply Hone.
  - left. case_decide; [|by apply Hquiet]. by eapply Hone.
  - left. case_decide; [|by apply Hquiet]. by eapply Hone.
Qed.

Lemma run_invariant (predict_sign : string → option string * float)
    (P : State → Prop) :
  (∀ st r, P st → P (step predict_sign st r)) →
  ∀ rs st, P st → P (run predict_sign st rs).
Proof.
  intros Hstep rs. induction rs as [|r rs IH]; intros st HP; simpl; auto.
Qed.

Lemma run_app (predict_sign : string → option string * float)
    (st : State) (rs1 rs2 : list Request) :
  run predict_sign st (rs1 ++ rs2) =
  run predict_sign (run predict_sign st rs1) rs2.
Proof. revert st. induction rs1 as [|r rs1 IH]; intros st; simpl; auto. Qed.

Lemma update_one_push_Forall (P : Room.t → Prop) (room_id pid : string)
    (coll : list Room.t) (room : Room.t) :
  find_one_room room_id coll = Some room →
  P (push_participant room pid) →
  Forall P coll → Forall P (update_one_push room_id pid coll).
Proof.
  induction coll as [|r coll IH]; simpl; [done|].
  intros Hfind Hpush Hall. apply Forall_cons in Hall as [Hr Hcoll].
  case_decide.
  - injection Hfind as ->. by constructor.
  - constructor; auto.
Qed.

Lemma elem_of_update_one_push (room_id pid : string) (coll : list Room.t)
    (r' : Room.t) :
  r' ∈ update_one_push room_id pid coll →
  r' ∈ coll
  ∨ ∃ r, find_one_room room_id coll = Some r ∧ r ∈ coll
         ∧ r' = push_participant r pid.
Proof.
  induction coll as [|r coll IH]; simpl; [by left|].
  case_decide; intros Hin; apply elem_of_cons in Hin as [->|Hin].
  - right. exists r. split_and!; try done. by left.
  - left. by right.
  - left. by left.
  - destruct (IH Hin) as [?|(r0 & ? & ? & ?)].
    + left. by right.
    + right. exists r0. split_and!; try done. by right.
Qed.

(** X11.  Whatever requests and events the server has served since it
    started empty, and whatever capacities its rooms were created with,
    no room document lists more participants than its
    [max_participants], a negative capacity counting as zero. *)
Theorem capacity_holds_in_every_reachable_state
    (predict_sign : string → option string * float) (rs : list Request) :
  Forall room_within_bound (db_rooms (run predict_sign init rs)).
Proof.
  apply (run_invariant predict_sign
           (λ st, Forall room_within_bound (db_rooms st))).
  - intros st r Hok.
    destruct (step_effect predict_sign st r)
      as [(-> & _) | [(new_room & Hnew & -> & _)
         | [(room_id & data & uuid & now & room & to & Hfind & Hfree
             & -> & _)
           | (request & uuid & now & text & conf & participant & to
              & _ & _ & -> & _)]]]; try done.
    + apply Forall_app. split; [done|]. constructor; [|done].
      unfold room_within_bound. rewrite Hnew. simpl. lia.
    + apply update_one_push_Forall with room; try done.
      unfold room_within_bound, push_participant. simpl.
      rewrite length_app. simpl. lia.
  - constructor.
Qed.

(** X12.  Whatever the server has served since it started empty, the
    room documents and the participant records agree: every id in a
    room's participant list is the id of a stored participant record
    that names this room, and every stored participant record is listed
    in the room document found under its room id. *)
Theorem rooms_and_records_agree
    (predict_sign : string → option string * float) (rs : list Request) :
  participants_have_records (run predict_sign init rs)
  ∧ records_are_listed (run predict_sign init rs).
Proof.
  apply (run_invariant predict_sign
           (λ st, participants_have_records st ∧ records_are_listed st)).
  - intros st r [Hrec Hlisted].
    unfold participants_have_records, records_are_listed.
    destruct (step_effect predict_sign st r)
      as [(-> & -> & _) | [(new_room & Hnew & -> & -> & _)
         | [(room_id & data & uuid & now & room & to & Hfind & Hfree
             & -> & -> & _)
           | (request & uuid & now & text & conf & participant & to
              & _ & _ & -> & -> & _)]]]; try done.
    + split.
      * intros room pid Hroom Hpid.
        apply elem_of_app in Hroom as [Hroom|Hroom]; [eauto|].
        apply list_elem_of_singleton in Hroom as ->.
        rewrite Hnew in Hpid. by apply elem_of_nil in Hpid.
      * intros p Hp. destruct (Hlisted p Hp) as (room & Hfound & Hin).
        exists room. split; [|done].
        by rewrite find_one_room_app, Hfound.
    + split.
      * intros room' pid Hroom Hpid.
        apply elem_of_update_one_push in Hroom
          as [Hroom|(r0 & Hfind0 & Hr0 & ->)].
        -- destruct (Hrec room' pid Hroom Hpid) as (p & Hp & ? & ?).
           exists p. split_and!; try done. apply elem_of_app. by left.
        -- simpl in Hpid. apply elem_of_app in Hpid as [Hpid|Hpid].
           ++ destruct (Hrec r0 pid Hr0 Hpid) as (p & Hp & ? & ?).
              exists p. split_and!; try done. apply elem_of_app. by left.
           ++ apply list_elem_of_singleton in Hpid as ->.
              eexists. split_and!.
              ** apply elem_of_app. right. by left.
              ** done.
              ** simpl. apply find_one_room_Some in Hfind0. symmetry. tauto.
      * intros p Hp. rewrite find_one_room_push.
        apply elem_of_app in Hp as [Hp|Hp].
        -- destruct (Hlisted p Hp) as (room' & Hfound & Hin).
           case_decide as Heq.
           ++ rewrite <- Heq, Hfound. simpl. eexists. split; [done|].
              simpl. apply elem_of_app. by left.
           ++ by exists room'.
        -- apply list_elem_of_singleton in Hp as ->. simpl.
           rewrite decide_True, Hfind by done. simpl.
           eexists. split; [done|]. simpl. apply elem_of_app. right.
           by left.
  - split.
    + intros room pid Hroom. by apply elem_of_nil in Hroom.
    + intros p Hp. by apply elem_of_nil in Hp.
Qed.

(** X13.  Whatever the classifier answers and whatever the server has
    served since it started empty, every stored caption passed the gate:
    its confidence exceeds 0.7 and its text is not empty. *)
Theorem stored_captions_passed_the_gate
    (predict_sign : string → option string * float) (rs : list Request) :
  Forall caption_passed_gate (db_captions (run predict_sign init rs)).
Proof.
  apply (run_invariant predict_sign
           (λ st, Forall caption_passed_gate (db_captions st))).
  - intros st r Hok.
    destruct (step_effect predict_sign st r)
      as [(_ & _ & -> & _) | [(new_room & Hnew & _ & _ & -> & _)
         | [(room_id & data & uuid & now & room & to & _ & _
             & _ & _ & -> & _)
           | (request & uuid & now & text & conf & participant & to
              & Htext & Hconf & _ & _ & -> & _)]]]; try done.
    apply Forall_app. split; [done|]. constructor; [|done].
    by split.
  - constructor.
Qed.

(** X14.  Whatever the server has served since it started empty, nothing
    was announced that is not stored: every [new_caption] packet carries
    a caption that is in the caption store, and every
    [participant_joined] packet carries a participant record that is in
    the participant store and names the room the packet names. *)
Theorem announced_is_in_the_store
    (predict_sign : string → option string * float) (rs : list Request) :
  announced_is_stored (run predict_sign init rs).
Proof.
  apply (run_invariant predict_sign announced_is_stored).
  - intros st r Hok. unfold announced_is_stored.
    destruct (step_effect predict_sign st r)
      as [(_ & -> & -> & extra & -> & Hextra)
         | [(new_room & Hnew & _ & -> & -> & ->)
         | [(room_id & data & uuid & now & room & to & _ & _
             & _ & -> & -> & ->)
           | (request & uuid & now & text & conf & participant & to
              & _ & _ & _ & -> & -> & ->)]]]; try done.
    + intros m Hm. apply elem_of_app in Hm as [Hm|Hm]; [by apply Hok|].
      rewrite Forall_forall in Hextra. destruct (Hextra m Hm) as [Hc Hp].
      by destruct (event m).
    + intros m Hm. apply elem_of_app in Hm as [Hm|Hm].
      * specialize (Hok m Hm). destruct (event m); try done.
        destruct Hok. split; [|done]. apply elem_of_app. by left.
      * apply list_elem_of_singleton in Hm as ->. simpl.
        split; [|done]. apply elem_of_app. right. by left.
    + intros m Hm. apply elem_of_app in Hm as [Hm|Hm].
      * specialize (Hok m Hm). destruct (event m); try done.
        apply elem_of_app. by left.
      * apply list_elem_of_singleton in Hm as ->. simpl.
        apply elem_of_app. right. by left.
  - intros m Hm. by apply elem_of_nil in Hm.
Qed.

(** ** Nothing is ever taken back *)

Lemma room_grown_refl (r : Room.t) : room_grown r r.
Proof. unfold room_grown. by split_and!. Qed.

Lemma room_grown_trans (r1 r2 r3 : Room.t) :
  room_grown r1 r2 → room_grown r2 r3 → room_grown r1 r3.
Proof.
  intros (? & ? & ? & ? & ?) (? & ? & ? & ? & ?). unfold room_grown.
  split_and!; try congruence. by etrans.
Qed.

Lemma Forall2_room_grown_refl (l : list Room.t) : Forall2 room_grown l l.
Proof.
  apply Forall_Forall2_diag, Forall_forall. intros r _.
  apply room_grown_refl.
Qed.

Lemma Forall2_room_grown_trans (l1 l2 l3 : list Room.t) :
  Forall2 room_grown l1 l2 → Forall2 room_grown l2 l3 →
  Forall2 room_grown l1 l3.
Proof.
  intros H12. revert l3. induction H12 as [|r1 r2 l1 l2 Hr H12 IH];
    intros l3 H23; inversion H23 as [|? r3 ? l3' Hr' H23']; subst.
  - constructor.
  - constructor; [by eapply room_grown_trans|by apply IH].
Qed.

Lemma rooms_grown_refl (l : list Room.t) : rooms_grown l l.
Proof.
  exists l, []. split; [by rewrite app_nil_r|].
  apply Forall2_room_grown_refl.
Qed.

Lemma rooms_grown_trans (l1 l2 l3 : list Room.t) :
  rooms_grown l1 l2 → rooms_grown l2 l3 → rooms_grown l1 l3.
Proof.
  intros (k1 & n1 & -> & H1) (k2 & n2 & -> & H2).
  apply Forall2_app_inv_l in H2 as (k2a & k2b & Ha & Hb & ->).
  exists k2a, (k2b ++ n2). split; [by rewrite app_assoc|].
  by eapply Forall2_room_grown_trans.
Qed.

Lemma update_one_push_grown (room_id pid : string) (coll : list Room.t) :
  Forall2 room_grown coll (update_one_push room_id pid coll).
Proof.
  induction coll as [|r coll IH]; simpl; [constructor|].
  case_decide.
  - constructor; [|apply Forall2_room_grown_refl].
    unfold room_grown, push_participant. simpl. split_and!; try done.
    by apply prefix_app_r.
  - constructor; [apply room_grown_refl|done].
Qed.

Lemma grown_refl (st : State) : grown st st.
Proof. unfold grown. split_and!; try done. apply rooms_grown_refl. Qed.

Lemma grown_trans (st1 st2 st3 : State) :
  grown st1 st2 → grown st2 st3 → grown st1 st3.
Proof.
  intros (? & ? & ? & ?) (? & ? & ? & ?). unfold grown.
  split_and!; try (by etrans). by eapply rooms_grown_trans.
Qed.

Lemma step_grown (predict_sign : string → option string * float)
    (st : State) (r : Request) :
  grown st (step predict_sign st r).
Proof.
  unfold grown.
  destruct (step_effect predict_sign st r)
    as [(-> & -> & -> & extra & -> & _)
       | [(new_room & Hnew & -> & -> & -> & ->)
       | [(room_id & data & uuid & now & room & to & _ & _
           & -> & -> & -> & ->)
         | (request & uuid & now & text & conf & participant & to
            & _ & _ & -> & -> & -> & ->)]]].
  - split_and!; try done; [apply rooms_grown_refl|by apply prefix_app_r].
  - split_and!; try done.
    eexists _, _. split; [done|]. apply Forall2_room_grown_refl.
  - split_and!; try done; try (by apply prefix_app_r).
    eexists _, []. split; [by rewrite app_nil_r|].
    apply update_one_push_grown.
  - split_and!; try done; try (by apply prefix_app_r).
    apply rooms_grown_refl.
Qed.

(** X15.  No request and no event ever takes anything back.  After any
    sequence of them, from any state, the participant store, the caption
    store and the outbox are what they were with entries appended, and
    the room collection holds the documents it had, in place, each with
    the same id, name, creation time and capacity and with its
    participant list extended at the end, followed by the rooms created
    since.  So a place taken in a room is never freed, and a room, a
    participant or a caption is never deleted or altered. *)
Theorem stores_only_grow
    (predict_sign : string → option string * float)
    (st : State) (rs : list Request) :
  rooms_grown (db_rooms st) (db_rooms (run predict_sign st rs))
  ∧ db_participants st `prefix_of`
      db_participants (run predict_sign st rs)
  ∧ db_captions st `prefix_of` db_captions (run predict_sign st rs)
  ∧ outbox st `prefix_of` outbox (run predict_sign st rs).
Proof.
  change (grown st (run predict_sign st rs)).
  revert st. induction rs as [|r rs IH]; intros st; simpl.
  - apply grown_refl.
  - eapply grown_trans; [apply step_grown|apply IH].
Qed.

(** ** Rooms hold live connections only *)

Lemma members_connect (rooms : gmap (option string) (list string))
    (sid : string) (room : option string) :
  Sio.members (Sio.connect rooms sid) room =
  if decide (room = Some sid)
  then Sio.add_member sid (Sio.members rooms (Some sid))
  else if decide (room = None)
       then Sio.add_member sid (Sio.members rooms None)
       else Sio.members rooms room.
Proof.
  unfold Sio.connect. rewrite members_enter_room.
  destruct (decide (Some sid = room)) as [<-|Hne].
  - rewrite decide_True by done.
    by rewrite members_enter_room, decide_False.
  - rewrite decide_False by done. rewrite members_enter_room.
    destruct (decide (None = room)) as [<-|Hne'].
    + by rewrite decide_True.
    + by rewrite decide_False.
Qed.

Lemma step_members_connected
    (predict_sign : string → option string * float)
    (st : State) (r : Request) :
  members_connected st → members_connected (step predict_sign st r).
Proof.
  intros Hok. unfold members_connected, connected in *.
  destruct r as [room_data uuid now | room_id | room_id data uuid now
                | request uuid now | room_id | sid | sid | sid data
                | sid data | sid data | sid data | sid data | sid data now];
    simpl.
  - unfold Api.create_room.
    destruct (RoomCreate.max_participants room_data) as [capacity|];
      [|done].
    by destruct (fits_int64 capacity).
  - unfold Api.get_room. by destruct (find_one_room room_id (db_rooms st)).
  - unfold Api.join_room.
    destruct (find_one_room room_id (db_rooms st)) as [room|]; [|done].
    destruct (Room.max_participants room
              <=? Z.of_nat (length (Room.participants room)))%Z; [done|].
    by destruct (emit_raises _ _).
  - destruct (predict_cases predict_sign st request uuid now)
      as (label & conf & Hcls & [[_ ->] | [Hunknown | Haccept]]);
      [done| |].
    + by destruct Hunknown as (text & _ & _ & _ & _ & ->).
    + by destruct Haccept as (text & participant & _ & _ & _ & _ & ->).
  - done.
  - case_decide as Hlive; [done|]. simpl.
    intros room x. rewrite !members_connect. simpl.
    intros Hx. apply elem_of_add_member.
    destruct (decide (room = Some sid)) as [->|Hroom].
    + apply elem_of_add_member in Hx as [->|Hx]; [by left|].
      right. by apply (Hok (Some sid)).
    + destruct (decide (room = None)) as [->|Hnone].
      * by apply elem_of_add_member in Hx.
      * right. by apply (Hok room).
  - case_decide as Hlive; [|done]. simpl. unfold Events.disconnect.
    intros room x. rewrite !members_disconnect, !elem_of_remove_member.
    intros [Hx Hne]. split; [by apply (Hok room)|done].
  - case_decide as Hlive; [|done]. unfold Events.join_room.
    destruct (truthy (data !! "room_id")) eqn:Hroom; [|done].
    apply truthy_true in Hroom as (r & Hr & _). rewrite Hr. simpl.
    intros room x. rewrite !members_enter_room.
    rewrite (decide_False (P := Some r = None)) by done.
    case_decide; [|by apply Hok].
    intros Hx. apply elem_of_add_member in Hx as [->|Hx]; [done|].
    by apply (Hok (Some r)).
  - case_decide as Hlive; [|done]. unfold Events.leave_room.
    destruct (truthy (data !! "room_id")) eqn:Hroom; [|done].
    apply truthy_true in Hroom as (r & Hr & _). rewrite Hr. simpl.
    intros room x. rewrite !members_leave_room.
    rewrite (decide_False (P := Some r = None)) by done.
    case_decide; [|by apply Hok].
    rewrite elem_of_remove_member. intros [Hx _]. by apply (Hok (Some r)).
  - by case_decide.
  - by case_decide.
  - by case_decide.
  - by case_decide.
Qed.

(** X16.  Whatever the server has served since it started empty, only
    live connections are in rooms: a connection found in any room is
    connected.  Hence once a connection has disconnected it is in no
    room, whatever rooms it had joined and whether or not it had left
    them. *)
Theorem rooms_hold_live_connections_only
    (predict_sign : string → option string * float) (rs : list Request) :
  members_connected (run predict_sign init rs)
  ∧ ∀ sid room,
      sid ∉ Sio.members
              (sio_rooms (run predict_sign init (rs ++ [Disconnect sid])))
              room.
Proof.
  assert (Hinv : ∀ rs', members_connected (run predict_sign init rs')).
  { intros rs'. apply (run_invariant predict_sign members_connected).
    - intros st r. apply step_members_connected.
    - intros room sid Hin. unfold Sio.members, init in Hin.
      simpl in Hin. rewrite lookup_empty in Hin.
      by apply elem_of_nil in Hin. }
  split; [apply Hinv|]. intros sid room. rewrite run_app. simpl.
  specialize (Hinv rs). set (st := run predict_sign init rs) in *.
  case_decide as Hlive.
  - simpl. unfold Events.disconnect.
    rewrite members_disconnect, elem_of_remove_member. tauto.
  - intros Hin. apply Hlive. by apply (Hinv room).
Qed.

Lemma run_grown (predict_sign : string → option string * float)
    (st : State) (rs : list Request) :
  grown st (run predict_sign st rs).
Proof.
  revert st. induction rs as [|r rs IH]; intros st; simpl.
  - apply grown_refl.
  - eapply grown_trans; [apply step_grown|apply IH].
Qed.

Lemma find_one_room_grown (room_id : string) (l l' : list Room.t)
    (room : Room.t) :
  rooms_grown l l' →
  find_one_room room_id l = Some room →
  ∃ room', find_one_room room_id l' = Some room' ∧ room_grown room room'.
Proof.
  intros (l1 & l2 & -> & Hgrown) Hfind.
  assert (Hl1 : ∃ room', find_one_room room_id l1 = Some room'
                         ∧ room_grown room room').
  { induction Hgrown as [|r r' l l1 Hr Hgrown IH]; simpl in *; [done|].
    destruct Hr as (Hid & Hrest). rewrite Hid.
    case_decide.
    - injection Hfind as <-. exists r'. split; [done|].
      unfold room_grown. tauto.
    - by apply IH. }
  destruct Hl1 as (room' & Hfind' & Hroom). exists room'.
  split; [|done]. by rewrite find_one_room_app, Hfind'.
Qed.

(** X17.  A full room stays full: once the participant list of a room
    has reached its capacity, every later join request for that room is
    refused with 400 "Room is full", whatever requests and events were
    served in between, for nothing ever takes a participant off the
    list. *)
Theorem full_room_stays_full
    (predict_sign : string → option string * float)
    (st : State) (room_id : string) (room : Room.t) (rs : list Request)
    (data : ParticipantCreate.t) (uuid : string) (now : Z) :
  find_one_room room_id (db_rooms st) = Some room →
  (Room.max_participants room
     ≤ Z.of_nat (length (Room.participants room)))%Z →
  Api.join_room (run predict_sign st rs) room_id data uuid now =
  (run predict_sign st rs, Raise (mkHTTPException 400 "Room is full")).
Proof.
  intros Hfind Hfull.
  destruct (run_grown predict_sign st rs) as (Hgrown & _).
  destruct (find_one_room_grown room_id _ _ room Hgrown Hfind)
    as (room' & Hfind' & _ & _ & _ & Hmax & Hprefix).
  apply join_room_full with room'; [done|].
  apply prefix_length in Hprefix. lia.
Qed.

Lemma full_room_stays_full_witness :
  (Api.join_room
     (run (λ _, (Some "HELLO", conf_09)) demo_full
        [Connect "sid-bob";
         EmitJoinRoom "sid-bob" {[ "room_id" := "r-demo" ]};
         EmitLeaveRoom "sid-bob" {[ "room_id" := "r-demo" ]};
         Disconnect "sid-bob"])
     "r-demo" (ParticipantCreate.mk "Carol") "p-carol" 1003).2 =
  Raise (mkHTTPException 400 "Room is full").
Proof.
  rewrite (full_room_stays_full (λ _, (Some "HELLO", conf_09)) demo_full
             "r-demo" demo_room
             [Connect "sid-bob";
              EmitJoinRoom "sid-bob" {[ "room_id" := "r-demo" ]};
              EmitLeaveRoom "sid-bob" {[ "room_id" := "r-demo" ]};
              Disconnect "sid-bob"]
             (ParticipantCreate.mk "Carol") "p-carol" 1003%Z eq_refl).
  - reflexivity.
  - simpl. lia.
Defined.

(** ** The two halves of the server *)

(** X18.  The two halves of the server do not write each other's state:
    a REST request never changes who is in which Socket.IO room (so a
    REST join does not put anybody's connection into the room), and a
    Socket.IO event, connect and disconnect included, never changes the
    room documents, the participant records or the captions (so chat
    messages and signaling are not stored, and entering or leaving a
    Socket.IO room is not recorded in the room document). *)
Theorem rest_and_socket_state_are_separate
    (predict_sign : string → option string * float)
    (st : State) (r : Request) :
  (is_rest r = true →
   sio_rooms (step predict_sign st r) = sio_rooms st)
  ∧ (is_rest r = false →
     db_rooms (step predict_sign st r) = db_rooms st
     ∧ db_participants (step predict_sign st r) = db_participants st
     ∧ db_captions (step predict_sign st r) = db_captions st).
Proof.
  destruct r as [room_data uuid now | room_id | room_id data uuid now
                | request uuid now | room_id | sid | sid | sid data
                | sid data | sid data | sid data | sid data | sid data now];
    simpl; (split; [intros Hrest|intros Hsocket]); try done.
  - unfold Api.create_room.
    destruct (RoomCreate.max_participants room_data) as [capacity|];
      [|done].
    by destruct (fits_int64 capacity).
  - unfold Api.get_room. by destruct (find_one_room room_id (db_rooms st)).
  - unfold Api.join_room.
    destruct (find_one_room room_id (db_rooms st)) as [room|]; [|done].
    destruct (Room.max_participants room
              <=? Z.of_nat (length (Room.participants room)))%Z; [done|].
    by destruct (emit_raises _ _).
  - destruct (predict_cases predict_sign st request uuid now)
      as (label & conf & Hcls & [[_ ->] | [Hunknown | Haccept]]);
      [done| |].
    + by destruct Hunknown as (text & _ & _ & _ & _ & ->).
    + by destruct Haccept as (text & participant & _ & _ & _ & _ & ->).
  - by case_decide.
  - by case_decide.
  - case_decide; [|done]. unfold Events.join_room.
    by destruct (truthy (data !! "room_id")).
  - case_decide; [|done]. unfold Events.leave_room.
    by destruct (truthy (data !! "room_id")).
  - by case_decide.
  - by case_decide.
  - by case_decide.
  - by case_decide.
Qed.

Lemma rest_and_socket_state_are_separate_witness :
  sio_rooms
    (step (λ _, (Some "HELLO", conf_09)) demo_carol
       (JoinRoom "r-six" (ParticipantCreate.mk "Carol") "p-carol" 1003)) =
    sio_rooms demo_carol
  ∧ db_rooms
      (step (λ _, (Some "HELLO", conf_09)) demo_pair
         (EmitLeaveRoom "sid-alice" leave_demo)) = db_rooms demo_pair.
Proof.
  split.
  - exact (proj1 (rest_and_socket_state_are_separate
                    (λ _, (Some "HELLO", conf_09)) demo_carol
                    (JoinRoom "r-six" (ParticipantCreate.mk "Carol")
                       "p-carol" 1003)) eq_refl).
  - exact (proj1 (proj2 (rest_and_socket_state_are_separate
                    (λ _, (Some "HELLO", conf_09)) demo_pair
                    (EmitLeaveRoom "sid-alice" leave_demo)) eq_refl)).
Defined.

(** ** Socket.IO events: addressing *)

(** X19.  Signaling and chat are addressed by a key that may be missing.
    A [webrtc_offer], [webrtc_answer] or [webrtc_ice_candidate] without
    [target_sid], and a [send_message] without [room_id], is emitted to
    the room named [None], that of all live connections: every one of
    them is sent the packet, the sender included.  A [send_message] with
    a [room_id] is sent to every connection in that room, whether or not
    the sender is in it, and to the sender too when it is. *)
Theorem missing_address_reaches_everyone (st : State) (sid : string)
    (data : gmap string string) (now : Z) :
  (data !! "target_sid" = None →
   outbox (Events.webrtc_offer st sid data) =
     outbox st ++
       [mkEmitted (webrtc_offer_event (data !! "offer") sid) None None
          (Sio.members (sio_rooms st) None)]
   ∧ outbox (Events.webrtc_answer st sid data) =
       outbox st ++
         [mkEmitted (webrtc_answer_event (data !! "answer") sid) None None
            (Sio.members (sio_rooms st) None)]
   ∧ outbox (Events.webrtc_ice_candidate st sid data) =
       outbox st ++
         [mkEmitted
            (webrtc_ice_candidate_event (data !! "candidate") sid)
            None None (Sio.members (sio_rooms st) None)])
  ∧ (data !! "room_id" = None →
     outbox (Events.send_message st sid data now) =
       outbox st ++
         [mkEmitted
            (new_message (data !! "message") (data !! "participant_name")
               now sid)
            None None (Sio.members (sio_rooms st) None)])
  ∧ (∀ r, data !! "room_id" = Some r →
       outbox (Events.send_message st sid data now) =
         outbox st ++
           [mkEmitted
              (new_message (data !! "message")
                 (data !! "participant_name") now sid)
              (Some r) None (Sio.members (sio_rooms st) (Some r))]).
Proof.
  split_and!.
  - intros Hmissing.
    unfold Events.webrtc_offer, Events.webrtc_answer,
      Events.webrtc_ice_candidate, emit.
    simpl. rewrite Hmissing, targets_no_skip. done.
  - intros Hmissing. unfold Events.send_message, emit. simpl.
    by rewrite Hmissing, targets_no_skip.
  - intros r Hroom. unfold Events.send_message, emit. simpl.
    by rewrite Hroom, targets_no_skip.
Qed.

Lemma missing_address_reaches_everyone_witness :
  outbox (Events.webrtc_offer demo_peers "sid-s" {[ "offer" := "v=0" ]}) =
  [mkEmitted (webrtc_offer_event (Some "v=0") "sid-s") None None
     ["sid-x"; "sid-s"; "sid-e"]].
Proof.
  exact (proj1 (proj1 (missing_address_reaches_everyone demo_peers "sid-s"
                         {[ "offer" := "v=0" ]} 0%Z) eq_refl)).
Defined.

(** X20.  Entering a room and leaving it again is a round trip on
    membership: for a connection that was not in the room, a
    [join_room] event followed by a [leave_room] event for the same room
    leaves every room with the members it had, changes no store, and
    has announced [user_joined] and then [user_left] to the same
    connections, those that were in the room before. *)
Theorem join_then_leave_restores_membership (st : State) (sid r : string)
    (data : gmap string string) :
  data !! "room_id" = Some r → r ≠ "" →
  sid ∉ Sio.members (sio_rooms st) (Some r) →
  let st2 := Events.leave_room (Events.join_room st sid data) sid data in
  (∀ room,
     Sio.members (sio_rooms st2) room = Sio.members (sio_rooms st) room)
  ∧ db_rooms st2 = db_rooms st
  ∧ db_participants st2 = db_participants st
  ∧ db_captions st2 = db_captions st
  ∧ outbox st2 =
      outbox st ++
        [mkEmitted (user_joined sid (data !! "participant_id")) (Some r)
           (Some sid) (Sio.members (sio_rooms st) (Some r));
         mkEmitted (user_left sid) (Some r) (Some sid)
           (Sio.members (sio_rooms st) (Some r))].
Proof.
  intros Hroom Hr Hout st2. subst st2.
  rewrite (event_join_room_eq st sid r data Hroom Hr).
  rewrite (event_leave_room_eq _ sid r data Hroom Hr). simpl.
  assert (Hback : ∀ room,
            Sio.members
              (Sio.leave_room (Sio.enter_room (sio_rooms st) sid (Some r))
                 sid (Some r)) room =
            Sio.members (sio_rooms st) room).
  { intros room. rewrite members_leave_room, !members_enter_room.
    case_decide; [|done]. subst room.
    rewrite decide_True by done.
    by rewrite remove_add_member, remove_member_absent. }
  split_and!; try done.
  rewrite !targets_skip, Hback, members_enter_room.
  rewrite decide_True by done.
  rewrite remove_add_member, remove_member_absent by done.
  by rewrite <- app_assoc.
Qed.

Lemma join_then_leave_restores_membership_witness :
  Sio.members
    (sio_rooms
       (Events.leave_room (Events.join_room demo_carol "sid-dave" join_dave)
          "sid-dave" join_dave)) (Some "r-six") =
  Sio.members (sio_rooms demo_carol) (Some "r-six").
Proof.
  pose proof
    (join_then_leave_restores_membership demo_carol "sid-dave" "r-six"
       join_dave eq_refl) as H.
  destruct H as [Hback _].
  - intros H. discriminate H.
  - vm_compute. intros H.
    repeat (apply elem_of_cons in H as [H|H]; [discriminate H|]).
    by apply elem_of_nil in H.
  - exact (Hback (Some "r-six")).
Defined.

(** X21.  Chat goes to whoever entered the Socket.IO room.  A
    [join_room] event is accepted for any room id from any live
    connection: no room document and no participant record is looked up,
    and none is written.  A message sent to that room id afterwards, by
    any live connection, is then sent to that connection. *)
Theorem message_reaches_whoever_entered_the_room
    (predict_sign : string → option string * float)
    (st : State) (sid sender r : string) (data msg : gmap string string)
    (now : Z) :
  connected st sid → connected st sender →
  data !! "room_id" = Some r → r ≠ "" →
  msg !! "room_id" = Some r →
  let st1 := step predict_sign st (EmitJoinRoom sid data) in
  let st2 := step predict_sign st1 (EmitSendMessage sender msg now) in
  db_rooms st2 = db_rooms st
  ∧ db_participants st2 = db_participants st
  ∧ ∃ to,
      outbox st2 =
        outbox st1 ++
          [mkEmitted
             (new_message (msg !! "message") (msg !! "participant_name")
                now sender)
             (Some r) None to]
      ∧ sid ∈ to.
Proof.
  intros Hsid Hsender Hroom Hr Hmsg st1 st2.
  assert (Hst1 : st1 =
            emit (set_sio_rooms st
                    (Sio.enter_room (sio_rooms st) sid (Some r)))
              (user_joined sid (data !! "participant_id")) (Some r)
              (Some sid)).
  { subst st1. simpl. rewrite decide_True by done.
    by apply event_join_room_eq. }
  assert (Hsender' : connected st1 sender).
  { rewrite Hst1. unfold connected. simpl.
    by rewrite members_enter_room, decide_False. }
  subst st2. simpl. rewrite (decide_True _ _ Hsender').
  unfold Events.send_message. rewrite Hmsg, Hst1. simpl.
  split_and!; try done. eexists. split; [done|].
  rewrite targets_no_skip, members_enter_room, decide_True by done.
  apply elem_of_add_member. by left.
Qed.

Lemma message_reaches_whoever_entered_the_room_witness :
  find_one_participant "p-dave" (db_participants demo_carol_dave) = None
  ∧ ∃ to,
      outbox
        (step (λ _, (None, 0%float))
           (step (λ _, (None, 0%float)) demo_carol_dave
              (EmitJoinRoom "sid-dave" join_dave))
           (EmitSendMessage "sid-carol"
              {[ "room_id" := "r-six"; "message" := "hello" ]} 3000)) =
        outbox
          (step (λ _, (None, 0%float)) demo_carol_dave
             (EmitJoinRoom "sid-dave" join_dave))
        ++ [mkEmitted (new_message (Some "hello") None 3000 "sid-carol")
              (Some "r-six") None to]
      ∧ "sid-dave" ∈ to.
Proof.
  split; [reflexivity|].
  assert (Hdave : connected demo_carol_dave "sid-dave")
    by (vm_compute; set_solver).
  assert (Hcarol : connected demo_carol_dave "sid-carol")
    by (vm_compute; set_solver).
  assert (Hr : "r-six" ≠ "") by (intros H; discriminate H).
  exact (proj2 (proj2
    (message_reaches_whoever_entered_the_room (λ _, (None, 0%float))
       demo_carol_dave "sid-dave" "sid-carol" "r-six" join_dave
       {[ "room_id" := "r-six"; "message" := "hello" ]} 3000%Z
       Hdave Hcarol eq_refl Hr eq_refl))).
Defined.

(** ** Loading the model *)

(** X22.  [load_ml_model] answers true only when the model and the
    labels loaded and the length of the labels could be taken.  The root
    route reports [model_loaded] from the model alone.  When the model
    or the labels did not load, every predict request is answered a null
    text with confidence 0.0 and changes nothing, also while the root
    route reports the model as loaded.  When both loaded they are both
    in place and the classifier is used, whatever [load_ml_model]
    answered. *)
Theorem failed_load_gives_null_predictions
    (loaded_model loaded_labels labels_sized : bool) :
  let loaded := Ml.load_ml_model loaded_model loaded_labels labels_sized in
  loaded.2 = loaded_model && loaded_labels && labels_sized
  ∧ (∀ st,
       (Api.root st loaded.1.1).2 =
       Return ("SignMeet API is running!", loaded_model))
  ∧ (loaded_model && loaded_labels = false →
     ∀ (infer : string → option (string * float)) (st : State)
       (request : PredictionRequest.t) (uuid : string) (now : Z),
       Api.predict_sign_language
         (Ml.predict_sign loaded.1.1 loaded.1.2 infer)
         st request uuid now =
       (st, Return (mkPrediction None 0%float)))
  ∧ (loaded_model && loaded_labels = true →
     loaded.1 = (true, true)
     ∧ ∀ (infer : string → option (string * float))
         (header encoded label : string) (conf : float),
         ","%char ∉ list_ascii_of_string header →
         ","%char ∉ list_ascii_of_string encoded →
         infer encoded = Some (label, conf) →
         Ml.predict_sign loaded.1.1 loaded.1.2 infer
           (header +:+ String "," encoded) = (Some label, conf)).
Proof.
  split_and!.
  - by destruct loaded_model, loaded_labels, labels_sized.
  - intros st. by destruct loaded_model, loaded_labels, labels_sized.
  - intros Hfailed infer st request uuid now.
    apply predict_rejects with None; [|done].
    destruct loaded_model, loaded_labels, labels_sized; done.
  - intros Hloaded. apply andb_true_iff in Hloaded as [-> ->].
    split; [by destruct labels_sized|].
    intros infer header encoded label conf Hheader Hencoded Hinfer.
    replace (Ml.load_ml_model true true labels_sized).1 with (true, true)
      by (by destruct labels_sized).
    unfold Ml.predict_sign. simpl.
    rewrite (split_at_sep _ header encoded Hheader).
    rewrite (split_no_sep _ encoded Hencoded). simpl.
    by rewrite Hinfer.
Qed.

Lemma failed_load_gives_null_predictions_witness :
  (Api.root demo_live (Ml.load_ml_model true false false).1.1).2 =
    Return ("SignMeet API is running!", true)
  ∧ Api.predict_sign_language
      (Ml.predict_sign (Ml.load_ml_model true false false).1.1
         (Ml.load_ml_model true false false).1.2
         (λ _, Some ("HELLO", conf_09)))
      demo_live frame_of_alice "c-1" 2000 =
    (demo_live, Return (mkPrediction None 0%float))
  ∧ (Ml.load_ml_model true true false).2 = false
  ∧ (Ml.load_ml_model true true false).1 = (true, true).
Proof.
  destruct (failed_load_gives_null_predictions true false false)
    as (_ & Hroot & Hnull & _).
  split_and!.
  - exact (Hroot demo_live).
  - exact (Hnull eq_refl (λ _, Some ("HELLO", conf_09)) demo_live
             frame_of_alice "c-1" 2000%Z).
  - destruct (failed_load_gives_null_predictions true true false)
      as (Hanswer & _ & _ & Hboth).
    exact Hanswer.
  - destruct (failed_load_gives_null_predictions true true false)
      as (_ & _ & _ & Hboth).
    exact (proj1 (Hboth eq_refl)).
Defined.
(** ** Relaying an offer *)

(** A client that connects while no room bears its sid is alone in the
    room named by its sid. *)
Lemma connect_own_room (rooms : gmap (option string) (list string))
    (sid : string) :
  Sio.members rooms (Some sid) = [] →
  Sio.members (Sio.connect rooms sid) (Some sid) = [sid].
Proof.
  intros Hfree. unfold Sio.connect.
  rewrite members_enter_room, decide_True by done.
  rewrite members_enter_room, decide_False by done.
  by rewrite Hfree.
Qed.

(** Who is in which room after a request or an event. *)
Lemma step_sio_rooms (predict_sign : string → option string * float)
    (st : State) (r : Request) :
  sio_rooms (step predict_sign st r) =
  match r with
  | Connect sid =>
      if decide (connected st sid) then sio_rooms st
      else Sio.connect (sio_rooms st) sid
  | Disconnect sid =>
      if decide (connected st sid) then Sio.disconnect (sio_rooms st) sid
      else sio_rooms st
  | EmitJoinRoom sid data =>
      if decide (connected st sid) then
        if truthy (data !! "room_id")
        then Sio.enter_room (sio_rooms st) sid (data !! "room_id")
        else sio_rooms st
      else sio_rooms st
  | EmitLeaveRoom sid data =>
      if decide (connected st sid) then
        if truthy (data !! "room_id")
        then Sio.leave_room (sio_rooms st) sid (data !! "room_id")
        else sio_rooms st
      else sio_rooms st
  | _ => sio_rooms st
  end.
Proof.
  destruct r as [room_data uuid now | room_id | room_id data uuid now
                | request uuid now | room_id | sid | sid | sid data
                | sid data | sid data | sid data | sid data | sid data now];
    simpl; try done.
  - unfold Api.create_room.
    destruct (RoomCreate.max_participants room_data) as [capacity|];
      [|done].
    by destruct (fits_int64 capacity).
  - unfold Api.get_room. by destruct (find_one_room room_id (db_rooms st)).
  - unfold Api.join_room.
    destruct (find_one_room room_id (db_rooms st)) as [room|]; [|done].
    destruct (Room.max_participants room
              <=? Z.of_nat (length (Room.participants room)))%Z; [done|].
    by destruct (emit_raises _ _).
  - destruct (predict_cases predict_sign st request uuid now)
      as (label & conf & Hcls & [[_ ->] | [Hunknown | Haccept]]);
      [done| |].
    + by destruct Hunknown as (text & _ & _ & _ & _ & ->).
    + by destruct Haccept as (text & participant & _ & _ & _ & _ & ->).
  - by case_decide.
  - by case_decide.
  - case_decide; [|done]. unfold Events.join_room.
    by destruct (truthy (data !! "room_id")).
  - case_decide; [|done]. unfold Events.leave_room.
    by destruct (truthy (data !! "room_id")).
  - by case_decide.
  - by case_decide.
  - by case_decide.
  - by case_decide.
Qed.

(** A request or an event that does not name the room of a sid leaves
    that room to the connection of the sid. *)
Lemma step_own_room (predict_sign : string → option string * float)
    (target : string) (st : State) (r : Request) :
  leaves_room_alone target r →
  own_room_intact st target →
  own_room_intact (step predict_sign st r) target.
Proof.
  unfold own_room_intact, connected. intros Halone [Hlive Hdead].
  rewrite (step_sio_rooms predict_sign st r).
  destruct r as [room_data uuid now | room_id | room_id data uuid now
                | request uuid now | room_id | sid | sid | sid data
                | sid data | sid data | sid data | sid data | sid data now];
    try done.
  - destruct (decide (connected st sid)) as [Hsid|Hsid]; [done|].
    unfold connected in Hsid. rewrite !members_connect.
    rewrite (decide_False (P := None = Some sid)) by done.
    rewrite (decide_True (P := None = None)) by done.
    rewrite elem_of_add_member.
    destruct (decide (Some target = Some sid)) as [[= ->]|Hne].
    + split; [|intros H; exfalso; apply H; by left].
      intros _. by rewrite (Hdead Hsid).
    + split.
      * intros [->|Hin]; [done|]. by apply Hlive.
      * intros Hout. apply Hdead. intros Hin. apply Hout. by right.
  - destruct (decide (connected st sid)) as [Hsid|Hsid]; [|done].
    rewrite !members_disconnect, elem_of_remove_member.
    unfold Sio.remove_member. split.
    + intros [Hin Hne]. rewrite (Hlive Hin).
      by rewrite filter_cons_True.
    + intros Hout.
      destruct (decide (target ∈ Sio.members (sio_rooms st) None))
        as [Hin|Hnotin].
      * rewrite (Hlive Hin). rewrite filter_cons_False; [done|].
        intros Hne. apply Hout. by split.
      * by rewrite (Hdead Hnotin).
  - destruct (decide (connected st sid)) as [Hsid|Hsid]; [|done].
    destruct (truthy (data !! "room_id")) eqn:Hroom; [|done].
    apply truthy_true in Hroom as (room & Hr & _).
    simpl in Halone. rewrite Hr in Halone |- *.
    rewrite !members_enter_room.
    rewrite (decide_False (P := Some room = None)) by done.
    rewrite decide_False by congruence. done.
  - destruct (decide (connected st sid)) as [Hsid|Hsid]; [|done].
    destruct (truthy (data !! "room_id")) eqn:Hroom; [|done].
    apply truthy_true in Hroom as (room & Hr & _).
    simpl in Halone. rewrite Hr in Halone |- *.
    rewrite !members_leave_room.
    rewrite (decide_False (P := Some room = None)) by done.
    rewrite decide_False by congruence. done.
Qed.

Lemma run_own_room (predict_sign : string → option string * float)
    (target : string) (rs : list Request) (st : State) :
  Forall (leaves_room_alone target) rs →
  own_room_intact st target →
  own_room_intact (run predict_sign st rs) target.
Proof.
  revert st. induction rs as [|r rs IH]; intros st Hrs Hown; simpl.
  - done.
  - apply Forall_cons in Hrs as [Hr Hrs]. apply IH; [done|].
    by apply step_own_room.
Qed.

(** C6, amended.  A [webrtc_offer] event emits exactly one
    [webrtc_offer] packet, carrying the offer and the sender's sid as
    [from_sid], to the Socket.IO room named by [target_sid], and changes
    nothing else; no room membership of the sender or of the target is
    looked at.  The packet is sent to whoever is in that room.  As long
    as no [join_room] and no [leave_room] event has had the target's sid
    as its room id since the server started, that is the target
    connection and nobody else while the target is connected, and nobody
    once it has disconnected. *)
Theorem offer_is_relayed_to_the_room_of_the_target (st : State)
    (sid target : string) (data : gmap string string) :
  data !! "target_sid" = Some target →
  let to := Sio.members (sio_rooms st) (Some target) in
  Events.webrtc_offer st sid data =
    mkState (db_rooms st) (db_participants st) (db_captions st)
      (sio_rooms st)
      (outbox st ++
         [mkEmitted (webrtc_offer_event (data !! "offer") sid)
            (Some target) None to])
  ∧ (∀ (predict_sign : string → option string * float)
       (rs : list Request),
       st = run predict_sign init rs →
       Forall (leaves_room_alone target) rs →
       (connected st target → to = [target])
       ∧ (¬ connected st target → to = [])).
Proof.
  intros Htarget to. split.
  - unfold Events.webrtc_offer, emit. rewrite Htarget.
    by rewrite targets_no_skip.
  - intros predict_sign rs -> Hrs.
    apply (run_own_room predict_sign target rs init Hrs).
    split; [|done]. unfold connected. simpl.
    intros H. by apply elem_of_nil in H.
Qed.

Lemma offer_is_relayed_to_the_room_of_the_target_witness :
  connected demo_peers "sid-s"
  ∧ Events.webrtc_offer demo_peers "sid-s" offer_for_x =
    mkState (db_rooms demo_peers) (db_participants demo_peers)
      (db_captions demo_peers) (sio_rooms demo_peers)
      (outbox demo_peers ++
         [mkEmitted
            (webrtc_offer_event (Some "v=0 o=- 46117317 2 IN IP4") "sid-s")
            (Some "sid-x") None ["sid-x"]])
  ∧ connected demo_peers "sid-x"
  ∧ Sio.members (sio_rooms demo_peers) (Some "sid-x") = ["sid-x"].
Proof.
  split; [vm_compute; set_solver|].
  destruct (offer_is_relayed_to_the_room_of_the_target demo_peers
              "sid-s" "sid-x" offer_for_x eq_refl) as [Hsent Hto].
  split; [exact Hsent|].
  assert (Hlive : connected demo_peers "sid-x") by (vm_compute; left).
  split; [exact Hlive|].
  refine (proj1 (Hto (λ _, (None, 0%float))
                   [Connect "sid-x"; Connect "sid-s"; Connect "sid-e"]
                   _ _) Hlive).
  - vm_compute. reflexivity.
  - repeat constructor.
Defined.

(** C6 as stated fails: a third connection that has sent [join_room]
    with the target's sid as room id is in the room the offer is emitted
    to, and gets the offer too. *)
Lemma offer_reaches_a_third_connection :
  recipients <$>
    last (outbox
            (Events.webrtc_offer
               (Events.join_room demo_peers "sid-e"
                  {[ "room_id" := "sid-x" ]})
               "sid-s" offer_for_x)) =
    Some ["sid-x"; "sid-e"]
  ∧ delivered is_webrtc_offer "sid-e"
      (outbox
         (Events.webrtc_offer
            (Events.join_room demo_peers "sid-e" {[ "room_id" := "sid-x" ]})
            "sid-s" offer_for_x)) = 1.
Proof. split; vm_compute; reflexivity. Qed.

(** ** The API tester against the server *)

Lemma run_test_pass {A : Type} (self : SignMeetAPITester.t)
    (expected_status : Z) (renders : A → bool) (r : Response A) :
  status_code renders r = expected_status →
  SignMeetAPITester.run_test self expected_status renders (Some r) =
  (SignMeetAPITester.mk (S (SignMeetAPITester.tests_run self))
     (S (SignMeetAPITester.tests_passed self))
     (SignMeetAPITester.room_id self)
     (SignMeetAPITester.participant_id self),
   true, body_of renders r).
Proof.
  intros Hstatus. unfold SignMeetAPITester.run_test.
  by rewrite decide_True.
Qed.

Lemma parse_full (image_data room_id participant_id : string) :
  PredictionRequest.parse
    {[ "image_data" := image_data; "room_id" := room_id;
       "participant_id" := participant_id ]} =
  Some (PredictionRequest.mk image_data room_id participant_id).
Proof. reflexivity. Qed.

Lemma predict_status_known_participant
    (predict_sign : string → option string * float)
    (st : State) (request : PredictionRequest.t) (uuid : string) (now : Z)
    (participant : Participant.t) :
  find_one_participant (PredictionRequest.participant_id request)
    (db_participants st) = Some participant →
  sio_rooms st = ∅ →
  finite (predict_sign (PredictionRequest.image_data request)).2 = true →
  let result :=
    Api.predict_sign_language predict_sign st request uuid now in
  status_code renders_prediction result.2 = 200%Z
  ∧ db_rooms result.1 = db_rooms st
  ∧ ∀ c, c ∈ db_captions result.1 →
         c ∈ db_captions st ∨ finite (Caption.confidence c) = true.
Proof.
  intros Hfind Hnone Hfinite result. subst result.
  destruct (predict_cases predict_sign st request uuid now)
    as (label & conf & Hcls & [[_ ->] | [Hunknown | Haccept]]).
  - rewrite Hcls in Hfinite. simpl in *. unfold renders_prediction.
    simpl. rewrite Hfinite. split_and!; try done. by left.
  - destruct Hunknown as (text & _ & _ & _ & Hmissing & _). congruence.
  - destruct Haccept as (text & p & _ & _ & _ & _ & ->).
    rewrite Hcls in Hfinite. simpl in *.
    rewrite bool_decide_eq_false_2 by (intros H; by apply H).
    unfold renders_prediction. simpl. rewrite Hfinite.
    split_and!; try done.
    intros c Hc. apply elem_of_app in Hc as [Hc|Hc]; [by left|].
    apply list_elem_of_singleton in Hc as ->. by right.
Qed.

Lemma captions_render (st : State) (room_id : string) :
  (∀ c, c ∈ db_captions st → Caption.room_id c = room_id →
        finite (Caption.confidence c) = true) →
  status_code renders_captions (Api.get_room_captions st room_id).2 = 200%Z.
Proof.
  intros Hfinite. unfold Api.get_room_captions. simpl.
  assert (renders_captions
            (take 50
               (merge_sort newer_first
                  (filter (λ c, Caption.room_id c = room_id)
                     (db_captions st)))) = true) as ->; [|done].
  unfold renders_captions. apply forallb_forall. intros c Hc.
  apply list_elem_of_In, elem_of_take_list in Hc.
  rewrite merge_sort_Permutation in Hc.
  apply list_elem_of_filter in Hc as [Hroom Hc]. by apply Hfinite.
Qed.

Lemma test_api_root_passes (n m : nat) (rid pid : option string)
    (st : State) (env : SignMeetAPITester.Env) :
  SignMeetAPITester.test_api_root (SignMeetAPITester.mk n m rid pid) st env
  = (SignMeetAPITester.mk (S n) (S m) rid pid, st, true).
Proof. done. Qed.

Lemma test_create_room_passes (n m : nat) (rid pid : option string)
    (st : State) (env : SignMeetAPITester.Env) :
  SignMeetAPITester.test_create_room (SignMeetAPITester.mk n m rid pid)
    st env =
  (SignMeetAPITester.mk (S n) (S m)
     (Some (SignMeetAPITester.room_uuid env)) pid,
   set_db_rooms st
     (db_rooms st ++
        [Room.mk (SignMeetAPITester.room_uuid env)
           (SignMeetAPITester.room_name env)
           (SignMeetAPITester.room_now env) [] 6]),
   true).
Proof. done. Qed.

Lemma test_get_room_passes (n m : nat) (rid : string)
    (pid : option string) (st : State) (env : SignMeetAPITester.Env)
    (room : Room.t) :
  rid ≠ "" →
  find_one_room rid (db_rooms st) = Some room →
  SignMeetAPITester.test_get_room
    (SignMeetAPITester.mk n m (Some rid) pid) st env =
  (SignMeetAPITester.mk (S n) (S m) (Some rid) pid, st, true).
Proof.
  intros Hrid Hfind.
  unfold SignMeetAPITester.test_get_room, Api.get_room. simpl.
  rewrite decide_False by done. by rewrite Hfind.
Qed.

Lemma test_join_room_passes (n m : nat) (rid : string)
    (pid : option string) (st : State) (env : SignMeetAPITester.Env)
    (room : Room.t) :
  rid ≠ "" →
  find_one_room rid (db_rooms st) = Some room →
  (Z.of_nat (length (Room.participants room))
     < Room.max_participants room)%Z →
  sio_rooms st = ∅ →
  SignMeetAPITester.test_join_room
    (SignMeetAPITester.mk n m (Some rid) pid) st env =
  (SignMeetAPITester.mk (S n) (S m) (Some rid)
     (Some (SignMeetAPITester.participant_uuid env)),
   (Api.join_room st rid
      (ParticipantCreate.mk (SignMeetAPITester.participant_name env))
      (SignMeetAPITester.participant_uuid env)
      (SignMeetAPITester.participant_now env)).1,
   true).
Proof.
  intros Hrid Hfind Hfree Hnone.
  unfold SignMeetAPITester.test_join_room. simpl.
  rewrite decide_False by done.
  rewrite (api_join_room_lets_in st rid _ _ _ room Hfind Hfree).
  by rewrite bool_decide_eq_false_2 by (intros H; by apply H).
Qed.

Lemma test_join_room_fails (n m : nat) (rid : string)
    (pid : option string) (st : State) (env : SignMeetAPITester.Env)
    (room : Room.t) :
  rid ≠ "" →
  find_one_room rid (db_rooms st) = Some room →
  (Z.of_nat (length (Room.participants room))
     < Room.max_participants room)%Z →
  sio_rooms st ≠ ∅ →
  SignMeetAPITester.test_join_room
    (SignMeetAPITester.mk n m (Some rid) pid) st env =
  (SignMeetAPITester.mk (S n) m (Some rid) pid,
   (Api.join_room st rid
      (ParticipantCreate.mk (SignMeetAPITester.participant_name env))
      (SignMeetAPITester.participant_uuid env)
      (SignMeetAPITester.participant_now env)).1,
   false).
Proof.
  intros Hrid Hfind Hfree Hsome.
  unfold SignMeetAPITester.test_join_room. simpl.
  rewrite decide_False by done.
  rewrite (api_join_room_lets_in st rid _ _ _ room Hfind Hfree).
  by rewrite bool_decide_eq_true_2.
Qed.

Lemma test_join_nonexistent_room_passes (n m : nat)
    (rid pid : option string) (st : State)
    (env : SignMeetAPITester.Env) :
  find_one_room "nonexistent-room-id" (db_rooms st) = None →
  SignMeetAPITester.test_join_nonexistent_room
    (SignMeetAPITester.mk n m rid pid) st env =
  (SignMeetAPITester.mk (S n) (S m) rid pid, st, true).
Proof.
  intros Hnone.
  unfold SignMeetAPITester.test_join_nonexistent_room, Api.join_room.
  by rewrite Hnone.
Qed.

Lemma test_predict_sign_language_passes
    (predict_sign : string → option string * float)
    (n m : nat) (rid pid : string) (st : State)
    (env : SignMeetAPITester.Env) (participant : Participant.t) :
  rid ≠ "" → pid ≠ "" →
  find_one_participant pid (db_participants st) = Some participant →
  sio_rooms st = ∅ →
  finite (predict_sign SignMeetAPITester.test_image_b64).2 = true →
  ∃ st',
    SignMeetAPITester.test_predict_sign_language predict_sign
      (SignMeetAPITester.mk n m (Some rid) (Some pid)) st env =
    (SignMeetAPITester.mk (S n) (S m) (Some rid) (Some pid), st', true)
    ∧ db_rooms st' = db_rooms st
    ∧ ∀ c, c ∈ db_captions st' →
           c ∈ db_captions st ∨ finite (Caption.confidence c) = true.
Proof.
  intros Hrid Hpid Hfind Hnone Hfinite.
  unfold SignMeetAPITester.test_predict_sign_language.
  cbn [SignMeetAPITester.room_id SignMeetAPITester.participant_id].
  unfold SignMeetAPITester.usable. rewrite !decide_False by done.
  cbv zeta. unfold Api.post_predict. rewrite parse_full.
  destruct (predict_status_known_participant predict_sign st
              (PredictionRequest.mk SignMeetAPITester.test_image_b64
                 rid pid)
              (SignMeetAPITester.caption_uuid env)
              (SignMeetAPITester.caption_now env) participant Hfind
              Hnone Hfinite)
    as (Hstatus & Hrooms & Hcaptions).
  rewrite (run_test_pass _ 200 _ _ Hstatus).
  eexists. split; [reflexivity|done].
Qed.

Lemma test_predict_sign_language_skipped
    (predict_sign : string → option string * float)
    (n m : nat) (rid : option string) (st : State)
    (env : SignMeetAPITester.Env) :
  SignMeetAPITester.test_predict_sign_language predict_sign
    (SignMeetAPITester.mk n m rid None) st env =
  (SignMeetAPITester.mk n m rid None, st, false).
Proof.
  unfold SignMeetAPITester.test_predict_sign_language. simpl.
  by destruct (SignMeetAPITester.usable rid).
Qed.

Lemma test_get_room_captions_passes (n m : nat) (rid : string)
    (pid : option string) (st : State) (env : SignMeetAPITester.Env) :
  rid ≠ "" →
  (∀ c, c ∈ db_captions st → Caption.room_id c = rid →
        finite (Caption.confidence c) = true) →
  SignMeetAPITester.test_get_room_captions
    (SignMeetAPITester.mk n m (Some rid) pid) st env =
  (SignMeetAPITester.mk (S n) (S m) (Some rid) pid, st, true).
Proof.
  intros Hrid Hfinite.
  unfold SignMeetAPITester.test_get_room_captions.
  cbn [SignMeetAPITester.room_id]. unfold SignMeetAPITester.usable.
  rewrite decide_False by done. cbv zeta.
  by rewrite (run_test_pass _ 200 _ _ (captions_render st rid Hfinite)).
Qed.

Lemma test_invalid_endpoints_passes
    (predict_sign : string → option string * float)
    (n m : nat) (rid pid : option string) (st : State)
    (env : SignMeetAPITester.Env) :
  find_one_room "invalid-room-id" (db_rooms st) = None →
  SignMeetAPITester.test_invalid_endpoints predict_sign
    (SignMeetAPITester.mk n m rid pid) st env =
  (SignMeetAPITester.mk (S (S n)) (S (S m)) rid pid, st, true).
Proof.
  intros Hnone.
  unfold SignMeetAPITester.test_invalid_endpoints, Api.get_room.
  by rewrite Hnone.
Qed.

(** X23.  The server against its own test suite.  Take any state of the
    server in which no room bears the fresh room id or one of the two
    ids the tests take for unknown, no participant bears the fresh
    participant id, and the captions stored for the fresh room id have
    finite confidences; let the classifier answer the test image with a
    finite confidence.  While no client is connected, the eight tests of
    [main] make nine requests, each answered with the status the test
    expects (the ninth by the framework, with 422, for the missing
    fields), so that [tests_passed = tests_run = 9] and [main] exits
    with 0.  With a client connected the join is answered 500, the
    predict test is skipped for want of a participant id, and [main]
    exits with 1 after 7 of 8 requests passed. *)
Theorem server_passes_its_tests
    (predict_sign : string → option string * float) (st : State)
    (env : SignMeetAPITester.Env) :
  (∀ r, r ∈ db_rooms st →
        Room.id r ≠ SignMeetAPITester.room_uuid env
        ∧ Room.id r ≠ "nonexistent-room-id"
        ∧ Room.id r ≠ "invalid-room-id") →
  SignMeetAPITester.room_uuid env ≠ "nonexistent-room-id" →
  SignMeetAPITester.room_uuid env ≠ "invalid-room-id" →
  SignMeetAPITester.room_uuid env ≠ "" →
  SignMeetAPITester.participant_uuid env ≠ "" →
  (∀ p, p ∈ db_participants st →
        Participant.id p ≠ SignMeetAPITester.participant_uuid env) →
  (∀ c, c ∈ db_captions st →
        Caption.room_id c = SignMeetAPITester.room_uuid env →
        finite (Caption.confidence c) = true) →
  finite (predict_sign SignMeetAPITester.test_image_b64).2 = true →
  let result := SignMeetAPITester.main predict_sign st env in
  (sio_rooms st = ∅ →
   SignMeetAPITester.tests_run result.1.1 = 9
   ∧ SignMeetAPITester.tests_passed result.1.1 = 9
   ∧ result.2 = 0%Z)
  ∧ (sio_rooms st ≠ ∅ →
     SignMeetAPITester.tests_run result.1.1 = 8
     ∧ SignMeetAPITester.tests_passed result.1.1 = 7
     ∧ result.2 = 1%Z).
Proof.
  intros Hrooms Hne1 Hne2 Hrid Hpid Hparts Hcaptions Hfinite result.
  subst result.
  assert (Hfresh : find_one_room (SignMeetAPITester.room_uuid env)
                     (db_rooms st) = None).
  { apply find_one_room_None. intros r Hr. by apply Hrooms. }
  assert (Hnone1 : find_one_room "nonexistent-room-id" (db_rooms st) = None).
  { apply find_one_room_None. intros r Hr. by apply Hrooms. }
  assert (Hnone2 : find_one_room "invalid-room-id" (db_rooms st) = None).
  { apply find_one_room_None. intros r Hr. by apply Hrooms. }
  apply find_one_participant_None in Hparts.
  set (room := Room.mk (SignMeetAPITester.room_uuid env)
                 (SignMeetAPITester.room_name env)
                 (SignMeetAPITester.room_now env) [] 6).
  set (st2 := set_db_rooms st (db_rooms st ++ [room])).
  assert (Hfind2 : find_one_room (SignMeetAPITester.room_uuid env)
                     (db_rooms st2) = Some room).
  { subst st2. simpl. rewrite find_one_room_app, Hfresh. simpl.
    by rewrite decide_True. }
  assert (Hfree : (Z.of_nat (length (Room.participants room))
                   < Room.max_participants room)%Z) by (simpl; lia).
  set (participant :=
         Participant.mk (SignMeetAPITester.participant_uuid env)
           (SignMeetAPITester.participant_name env)
           (SignMeetAPITester.room_uuid env)
           (SignMeetAPITester.participant_now env)).
  set (st4 :=
         (Api.join_room st2 (SignMeetAPITester.room_uuid env)
            (ParticipantCreate.mk (SignMeetAPITester.participant_name env))
            (SignMeetAPITester.participant_uuid env)
            (SignMeetAPITester.participant_now env)).1).
  assert (Hst4 : db_rooms st4 =
                   update_one_push (SignMeetAPITester.room_uuid env)
                     (SignMeetAPITester.participant_uuid env)
                     (db_rooms st2)
                 ∧ db_participants st4 =
                     db_participants st ++ [participant]
                 ∧ db_captions st4 = db_captions st
                 ∧ sio_rooms st4 = sio_rooms st).
  { subst st4.
    by rewrite (api_join_room_lets_in st2 _ _ _ _ room Hfind2 Hfree). }
  destruct Hst4 as (Hrooms4 & Hparts4 & Hcaptions4 & Hsio4).
  assert (Hnone4 : ∀ rid, rid ≠ SignMeetAPITester.room_uuid env →
            find_one_room rid (db_rooms st) = None →
            find_one_room rid (db_rooms st4) = None).
  { intros rid Hne Hnone. rewrite Hrooms4. subst st2. simpl.
    rewrite find_one_room_push, decide_False by done.
    rewrite find_one_room_app, Hnone. simpl. by rewrite decide_False. }
  assert (Hfind4 :
            find_one_participant (SignMeetAPITester.participant_uuid env)
              (db_participants st4) = Some participant).
  { rewrite Hparts4, find_one_participant_app, Hparts. simpl.
    by rewrite decide_True. }
  unfold SignMeetAPITester.main, SignMeetAPITester.new.
  rewrite test_api_root_passes. cbv beta iota.
  rewrite test_create_room_passes. cbv beta iota. fold room. fold st2.
  rewrite (test_get_room_passes _ _ _ _ st2 env room Hrid Hfind2).
  cbv beta iota. split.
  - intros Hnone.
    rewrite (test_join_room_passes _ _ _ _ st2 env room Hrid Hfind2 Hfree
               Hnone).
    cbv beta iota. fold st4.
    rewrite (test_join_nonexistent_room_passes _ _ _ _ st4 env)
      by (by apply Hnone4).
    cbv beta iota.
    destruct (test_predict_sign_language_passes predict_sign 5 5
                (SignMeetAPITester.room_uuid env)
                (SignMeetAPITester.participant_uuid env) st4 env
                participant Hrid Hpid Hfind4)
      as (st6 & Hpredict & Hrooms6 & Hcaptions6);
      [by rewrite Hsio4|done|].
    rewrite Hpredict. cbv beta iota.
    rewrite (test_get_room_captions_passes _ _ _ _ st6 env Hrid).
    2:{ intros c Hc Hroom. destruct (Hcaptions6 c Hc) as [Hold|Hnew];
          [|done].
        rewrite Hcaptions4 in Hold. by apply Hcaptions. }
    cbv beta iota.
    rewrite (test_invalid_endpoints_passes predict_sign _ _ _ _ st6 env)
      by (by rewrite ?Hrooms6; auto).
    cbv beta iota. simpl. done.
  - intros Hsome.
    rewrite (test_join_room_fails _ _ _ _ st2 env room Hrid Hfind2 Hfree
               Hsome).
    cbv beta iota. fold st4.
    rewrite (test_join_nonexistent_room_passes _ _ _ _ st4 env)
      by (by apply Hnone4).
    cbv beta iota.
    rewrite test_predict_sign_language_skipped. cbv beta iota.
    rewrite (test_get_room_captions_passes _ _ _ _ st4 env Hrid).
    2:{ intros c Hc Hroom. rewrite Hcaptions4 in Hc. by apply Hcaptions. }
    cbv beta iota.
    rewrite (test_invalid_endpoints_passes predict_sign _ _ _ _ st4 env)
      by auto.
    cbv beta iota. simpl. done.
Qed.

Lemma server_passes_its_tests_witness :
  SignMeetAPITester.tests_passed
    (SignMeetAPITester.main (λ _, (Some "HELLO", conf_09)) init
       (SignMeetAPITester.mkEnv "Test Room 101500"
          "Test Participant 101501" "r-test" "p-test" "c-test" "p-spare"
          1000 1001 1002 1003 true)).1.1 = 9
  ∧ (SignMeetAPITester.main (λ _, (Some "HELLO", conf_09))
       (Transport.on_connect init "sid-alice")
       (SignMeetAPITester.mkEnv "Test Room 101500"
          "Test Participant 101501" "r-test" "p-test" "c-test" "p-spare"
          1000 1001 1002 1003 true)).2 = 1%Z.
Proof.
  split.
  - pose proof
      (server_passes_its_tests (λ _, (Some "HELLO", conf_09)) init
         (SignMeetAPITester.mkEnv "Test Room 101500"
            "Test Participant 101501" "r-test" "p-test" "c-test" "p-spare"
            1000 1001 1002 1003 true)) as H.
    destruct H as [Hquiet _].
    + intros r Hr. by apply elem_of_nil in Hr.
    + intros H. discriminate H.
    + intros H. discriminate H.
    + intros H. discriminate H.
    + intros H. discriminate H.
    + intros p Hp. by apply elem_of_nil in Hp.
    + intros c Hc. by apply elem_of_nil in Hc.
    + reflexivity.
    + by destruct (Hquiet eq_refl) as (_ & Hpassed & _).
  - pose proof
      (server_passes_its_tests (λ _, (Some "HELLO", conf_09))
         (Transport.on_connect init "sid-alice")
         (SignMeetAPITester.mkEnv "Test Room 101500"
            "Test Participant 101501" "r-test" "p-test" "c-test" "p-spare"
            1000 1001 1002 1003 true)) as H.
    destruct H as [_ Hlive].
    + intros r Hr. by apply elem_of_nil in Hr.
    + intros H. discriminate H.
    + intros H. discriminate H.
    + intros H. discriminate H.
    + intros H. discriminate H.
    + intros p Hp. by apply elem_of_nil in Hp.
    + intros c Hc. by apply elem_of_nil in Hc.
    + reflexivity.
    + apply Hlive.
      apply (no_rooms_no_client (Transport.on_connect init "sid-alice")
               "sid-alice").
      vm_compute. left.
Defined.

(** ** The join route and its awaits *)

(** Cut at its awaits and run with no other handler in between, the
    join route is the route served in one piece. *)
Lemma join_steps_alone (st : State) (room_id : string)
    (participant_data : ParticipantCreate.t) (uuid : string) (now : Z) :
  JoinSteps.alone st room_id participant_data uuid now =
  ((Api.join_room st room_id participant_data uuid now).1,
   JoinSteps.Finished
     (Api.join_room st room_id participant_data uuid now).2).
Proof.
  unfold JoinSteps.alone, JoinSteps.start, Api.join_room.
  destruct (find_one_room room_id (db_rooms st)) as [room|]; [|done].
  destruct (Room.max_participants room
            <=? Z.of_nat (length (Room.participants room)))%Z; [done|].
  simpl. by destruct (emit_raises _ _).
Qed.

(** X25.  The capacity check and the push are not one step.  When a room
    has exactly one free place and two join requests both get the answer
    of [find_one] before either [update_one] takes effect, both are let
    in: both ids are pushed, and the room ends with one participant more
    than [max_participants].  Both are answered their participant while
    no client is connected, and 500 otherwise. *)
Theorem interleaved_joins_overfill_the_room (st : State) (room_id : string)
    (room : Room.t) (data_a data_b : ParticipantCreate.t)
    (uuid_a uuid_b : string) (now_a now_b : Z) :
  find_one_room room_id (db_rooms st) = Some room →
  (Z.of_nat (length (Room.participants room)) + 1
     = Room.max_participants room)%Z →
  let result :=
    JoinSteps.both_read_first st room_id data_a data_b uuid_a uuid_b
      now_a now_b in
  (sio_rooms st = ∅ →
   result.1.2 =
     JoinSteps.Finished
       (Return (Participant.mk uuid_a (ParticipantCreate.name data_a)
                  room_id now_a))
   ∧ result.2 =
       JoinSteps.Finished
         (Return (Participant.mk uuid_b (ParticipantCreate.name data_b)
                    room_id now_b)))
  ∧ (sio_rooms st ≠ ∅ →
     result.1.2 =
       JoinSteps.Finished
         (Raise (mkHTTPException 500 "Internal Server Error"))
     ∧ result.2 =
         JoinSteps.Finished
           (Raise (mkHTTPException 500 "Internal Server Error")))
  ∧ ∃ room',
      find_one_room room_id (db_rooms result.1.1) = Some room'
      ∧ Room.participants room' =
          Room.participants room ++ [uuid_a; uuid_b]
      ∧ Room.max_participants room' = Room.max_participants room
      ∧ (Z.of_nat (length (Room.participants room'))
           = Room.max_participants room' + 1)%Z.
Proof.
  intros Hfind Hone result. subst result.
  unfold JoinSteps.both_read_first, JoinSteps.start. rewrite Hfind.
  rewrite (proj2 (Z.leb_gt _ _)) by lia. simpl.
  unfold emit_raises. simpl. split_and!.
  - intros Hnone.
    by rewrite bool_decide_eq_false_2 by (intros H; by apply H).
  - intros Hsome. by rewrite bool_decide_eq_true_2.
  - rewrite !find_one_room_push, !decide_True, Hfind by done. simpl.
    eexists. split; [done|]. simpl. rewrite <- app_assoc. simpl.
    split_and!; try done. rewrite length_app. simpl. lia.
Qed.

Lemma interleaved_joins_overfill_the_room_witness :
  ∃ room',
    find_one_room "r-one"
      (db_rooms
         (JoinSteps.both_read_first
            (mkState [Room.mk "r-one" "One" 1000 ["p-alice"] 2] [alice] []
               ∅ [])
            "r-one" (ParticipantCreate.mk "Bob")
            (ParticipantCreate.mk "Carol") "p-bob" "p-carol" 1002
            1003).1.1) = Some room'
    ∧ Room.participants room' = ["p-alice"] ++ ["p-bob"; "p-carol"]
    ∧ Room.max_participants room' = 2%Z
    ∧ (Z.of_nat (length (Room.participants room'))
         = Room.max_participants room' + 1)%Z.
Proof.
  pose proof
    (interleaved_joins_overfill_the_room
       (mkState [Room.mk "r-one" "One" 1000 ["p-alice"] 2] [alice] [] ∅ [])
       "r-one" (Room.mk "r-one" "One" 1000 ["p-alice"] 2)
       (ParticipantCreate.mk "Bob") (ParticipantCreate.mk "Carol")
       "p-bob" "p-carol" 1002%Z 1003%Z eq_refl eq_refl) as H.
  destruct H as (_ & _ & Hroom). exact Hroom.
Defined.
